(** * Trigger reconstruction and event alignment of [run_preprocess]

    A shallow embedding of the event-alignment part of
    [code/utilities/python-mne-tools-xdf-eeg-format/preprocessing.py]
    (function [run_preprocess], lines 172-251): detection of the rising
    edges of the Status channel, repair of missing triggers, the two
    count assertions, construction of the behavioural table [T2] and the
    final comparison of event onset times.

    Further parts model the code around it: the configuration
    ([preprocessing_config.py]), the file checks at the start of
    [run_preprocess], the batch runner ([mne_run_all.py]) and the
    labels and folds of the decoding ([decoding.py]).

    Numbers.  The script computes with Python floats.  Here every time
    and the sampling rate are exact rationals ([Q]); sample indices are
    integers ([Z]).  The constant [0.11] is [11 # 100], [0.20] is
    [1 # 5].  [int(x) / sfreq] is [inject_Z x / sfreq], and
    [int(round(y))] is rounding to the nearest integer, halves to the
    even neighbour, as Python 3 does.  Rounding errors of binary64 are
    not modelled.

    Effects.  The script signals failure with [assert] and reports its
    progress with [print].  A computation is modelled as the list of
    lines it printed together with either its value or the exception it
    raised. *)

From Stdlib Require Import String ZArith QArith Qabs Qround List Sorted Bool.
From Stdlib Require Import Lia Lqa DecimalString.
Import ListNotations.

Local Open Scope Z_scope.

(** ** Exceptions, printed lines and the monad of the script *)

(** The exceptions the modelled region can raise.  The four assertions
    are named after the condition they guard; [assert_message] gives the
    text each one carries in the source.  [IndexError] is what a Python
    list raises for an index out of range. *)
Inductive exn : Type :=
| TooManyMissingTriggers
| InsertionOverflow
| InsertionUnderflow
| AlignmentToleranceExceeded
| IndexError.

Definition assert_message (e : exn) : string :=
  match e with
  | TooManyMissingTriggers => "Too many missing triggers"
  | InsertionOverflow => "Found too many events!"
  | InsertionUnderflow => "Found not enough events!"
  | AlignmentToleranceExceeded => "Event times do not seem to match"
  | IndexError => "list index out of range"
  end.

Inductive result (A : Type) : Type :=
| Ok (x : A)
| Raise (e : exn).
Arguments Ok {A} x.
Arguments Raise {A} e.

(** The lines printed between the detection of the triggers and the
    final assertion, with the values they show. *)
Inductive line : Type :=
| Reconstructing (missingtriggers : Z)
| Triggers (found expected : nat)
| Inserting (j : nat) (t : Q)
| FoundCounts (found expected : nat)
| Exceeding (diffs : list Q).

Definition is_inserting (l : line) : bool :=
  match l with Inserting _ _ => true | _ => false end.

Definition Py (A : Type) : Type := (list line * result A)%type.

Definition ret {A} (x : A) : Py A := ([], Ok x).
Definition raise {A} (e : exn) : Py A := ([], Raise e).
Definition print (l : line) : Py unit := ([l], Ok tt).

Definition bind {A B} (m : Py A) (f : A -> Py B) : Py B :=
  match m with
  | (out, Ok x) => let (out', r) := f x in (out ++ out', r)
  | (out, Raise e) => (out, Raise e)
  end.

Notation "x <- m ;; k" := (bind m (fun x => k))
  (at level 61, m at next level, right associativity).
Notation "m ;;; k" := (bind m (fun _ => k))
  (at level 61, right associativity).

(** [assert c, msg] *)
Definition assert (c : bool) (e : exn) : Py unit :=
  if c then ret tt else raise e.

Definition stdout {A} (m : Py A) : list line := fst m.
Definition outcome {A} (m : Py A) : result A := snd m.

(** The positions and times of the insertions a run reported. *)
Definition insertions (out : list line) : list line :=
  filter is_inserting out.

(** ** Python and numpy primitives *)

(** [l[j]] for a non-negative index. *)
Definition py_index {A} (l : list A) (j : nat) : Py A :=
  match nth_error l j with
  | Some x => ret x
  | None => raise IndexError
  end.

(** [l.insert(j, x)]: [x] goes before the element at index [j], or to
    the end when [j] is not below the length. *)
Definition py_insert {A} (j : nat) (x : A) (l : list A) : list A :=
  firstn j l ++ x :: skipn j l.

(** [int(round(q))]: nearest integer, ties to the even one. *)
Definition py_round (q : Q) : Z :=
  let n := Qnum q in
  let d := Z.pos (Qden q) in
  let f := n / d in
  match 2 * (n mod d) ?= d with
  | Lt => f
  | Gt => f + 1
  | Eq => if Z.even f then f else f + 1
  end.

(** [x < y] on rationals, as a boolean. *)
Definition Qltb (x y : Q) : bool :=
  match (x ?= y)%Q with Lt => true | _ => false end.

(** [np.diff]. *)
Fixpoint np_diff (x : list Q) : list Q :=
  match x with
  | x0 :: ((x1 :: _) as tl) => (x1 - x0)%Q :: np_diff tl
  | _ => []
  end.

(** [np.nonzero(m)[0]] for a boolean vector: the indices of its true
    entries, counted from [i]. *)
Fixpoint np_nonzero_from (i : Z) (m : list bool) : list Z :=
  match m with
  | [] => []
  | c :: m' =>
      if c then i :: np_nonzero_from (i + 1) m'
      else np_nonzero_from (i + 1) m'
  end.

Definition np_nonzero (m : list bool) : list Z := np_nonzero_from 0 m.

(** Element-wise difference of two vectors of the same length. *)
Fixpoint np_sub (x y : list Q) : list Q :=
  match x, y with
  | x0 :: x', y0 :: y' => (x0 - y0)%Q :: np_sub x' y'
  | _, _ => []
  end.

(** ** Data *)

(** A row of the behavioural table [T]: the logged onset time and the
    remaining columns. *)
Record BehavRow : Type := mkBehavRow {
  time_stimon : Q;
  columns : list (string * string)
}.

(** A row of [T2 = pd.concat((T2, T), axis=1)]. *)
Record AlignedRow : Type := mkAlignedRow {
  onset : Q;
  duration : Q;
  onsetsample : Z;
  eventnumber : nat;
  subjectnr : Z;
  behav : BehavRow
}.

(** ** Trigger detection (lines 172-175) *)

Definition target_delta : Q := 13824 # 1.

Definition detect_stim_onset_sample (stim_data : list Q) : list Z :=
  np_nonzero (map (fun d => Qeq_bool d target_delta) (np_diff stim_data)).

(** A rising edge of the target height starts at sample [i]. *)
Definition edge_at (stim_data : list Q) (i : Z) : Prop :=
  0 <= i /\
  exists x y,
    nth_error stim_data (Z.to_nat i) = Some x /\
    nth_error stim_data (S (Z.to_nat i)) = Some y /\
    (y - x == target_delta)%Q.

(** ** Repair of missing triggers (lines 187-208) *)

Definition threshold : Q := 11 # 100.

(** The two working lists of the loop. *)
Record walk_state : Type := mkWalk {
  a : list Q;
  stim_onset_sample : list Z
}.

(** The local gaps compared at position [j]. *)
Definition gaps (a b : list Q) (j : nat) : Py (Q * Q) :=
  aj <- py_index a j ;;
  aj1 <- py_index a (j - 1) ;;
  bj <- py_index b j ;;
  bj1 <- py_index b (j - 1) ;;
  ret ((aj - aj1)%Q, (bj - bj1)%Q).

(** One iteration of the loop body, at index [j]. *)
Definition walk_step (sfreq : Q) (b : list Q) (j : nat) (st : walk_state)
  : Py walk_state :=
  g <- gaps (a st) b j ;;
  let (da, db) := g in
  if Qltb threshold (da - db)%Q then
    aj1 <- py_index (a st) (j - 1) ;;
    print (Inserting j (aj1 + db)%Q) ;;;
    let a' := py_insert j (aj1 + db)%Q (a st) in
    aj1' <- py_index a' (j - 1) ;;
    ret (mkWalk a'
           (py_insert j (py_round (sfreq * (aj1' + db))%Q)
              (stim_onset_sample st)))
  else ret st.

(** The comparison of the loop body, on lists read with a default. *)
Definition over_threshold (a b : list Q) (j : nat) : bool :=
  Qltb threshold
    ((nth j a 0 - nth (j - 1) a 0) - (nth j b 0 - nth (j - 1) b 0))%Q.

(** The timestamp the loop body synthesizes at position [j]. *)
Definition synthesized (a b : list Q) (j : nat) : Q :=
  (nth (j - 1) a 0 + (nth j b 0 - nth (j - 1) b 0))%Q.

(** The state after an insertion at position [j]. *)
Definition insert_at (sfreq : Q) (b : list Q) (j : nat) (st : walk_state)
  : walk_state :=
  mkWalk (py_insert j (synthesized (a st) b j) (a st))
         (py_insert j (py_round (sfreq * synthesized (a st) b j))
            (stim_onset_sample st)).

(** [for j in range(from, from + steps)]. *)
Fixpoint walk_from (sfreq : Q) (b : list Q) (j steps : nat)
  (st : walk_state) : Py walk_state :=
  match steps with
  | O => ret st
  | S k =>
      st' <- walk_step sfreq b j st ;;
      walk_from sfreq b (S j) k st'
  end.

(** [for j in range(1, len(a))]: the bound is the length of [a] when the
    loop is entered. *)
Definition walk (sfreq : Q) (b : list Q) (st : walk_state) : Py walk_state :=
  walk_from sfreq b 1 (length (a st) - 1) st.

(** [[int(x) / sfreq for x in stim_onset_sample]] *)
Definition seconds (sfreq : Q) (stim : list Z) : list Q :=
  map (fun x => (inject_Z x / sfreq)%Q) stim.

Definition missingtriggers (T : list BehavRow) (stim : list Z) : Z :=
  Z.of_nat (length T) - Z.of_nat (length stim).

(** Lines 187-208: the candidate list after the repair. *)
Definition fix_missing_triggers (sfreq : Q) (T : list BehavRow)
  (stim : list Z) : Py (list Z) :=
  if 0 <? missingtriggers T stim then
    print (Reconstructing (missingtriggers T stim)) ;;;
    print (Triggers (length stim) (length T)) ;;;
    assert (missingtriggers T stim <? 100) TooManyMissingTriggers ;;;
    st <- walk sfreq (map time_stimon T)
            (mkWalk (seconds sfreq stim) stim) ;;
    ret (stim_onset_sample st)
  else ret stim.

(** ** The aligned table and the final comparison (lines 210-251) *)

Fixpoint make_T2_from (sfreq : Q) (subj : Z) (i : nat)
  (stim : list Z) (T : list BehavRow) : list AlignedRow :=
  match stim, T with
  | x :: stim', r :: T' =>
      mkAlignedRow (inject_Z x / sfreq)%Q (1 # 5) x i subj r
      :: make_T2_from sfreq subj (S i) stim' T'
  | _, _ => []
  end.

Definition make_T2 (sfreq : Q) (subj : Z) (stim : list Z)
  (T : list BehavRow) : list AlignedRow :=
  make_T2_from sfreq subj 0 stim T.

(** [np.diff(T2["onset"]) - np.diff(T2["time_stimon"])]. *)
Definition onset_diffs (T2 : list AlignedRow) : list Q :=
  np_sub (np_diff (map onset T2))
         (np_diff (map (fun r => time_stimon (behav r)) T2)).

Definition all_below (diffs : list Q) : bool :=
  forallb (fun d => Qltb d threshold) diffs.

(** Lines 187-251, from the detected triggers to the checked table. *)
Definition reconcile (sfreq : Q) (subj : Z) (T : list BehavRow)
  (stim : list Z) : Py (list AlignedRow) :=
  stim' <- fix_missing_triggers sfreq T stim ;;
  (if (length T <? length stim')%nat
   then print (FoundCounts (length stim') (length T))
   else ret tt) ;;;
  assert (length stim' <=? length T)%nat InsertionOverflow ;;;
  assert (length T <=? length stim')%nat InsertionUnderflow ;;;
  let T2 := make_T2 sfreq subj stim' T in
  let diffs := onset_diffs T2 in
  (if all_below diffs then ret tt
   else print (Exceeding (filter (fun d => negb (Qltb d threshold)) diffs))) ;;;
  assert (all_below diffs) AlignmentToleranceExceeded ;;;
  ret T2.

(** Lines 172-251. *)
Definition run_preprocess (sfreq : Q) (subj : Z) (T : list BehavRow)
  (stim_data : list Q) : Py (list AlignedRow) :=
  reconcile sfreq subj T (detect_stim_onset_sample stim_data).

(** The table described as a zip: row [i] pairs candidate [i] with row
    [i] of the behavioural table. *)
Definition direct_zip (sfreq : Q) (subj : Z) (stim : list Z)
  (T : list BehavRow) : list AlignedRow :=
  map (fun '(n, (x, r)) =>
         mkAlignedRow (inject_Z x / sfreq)%Q (1 # 5) x n subj r)
      (combine (seq 0 (length T)) (combine stim T)).

(** C1 as the specification words it: the tolerance bounds the absolute
    value of every difference, and the final assertion fails exactly
    when some absolute difference reaches it. *)
Definition C1_as_stated (sfreq : Q) (subj : Z) (T : list BehavRow)
  (stim : list Z) : Prop :=
  (forall out T2,
     reconcile sfreq subj T stim = (out, Ok T2) ->
     Forall (fun d => (Qabs d < threshold)%Q) (onset_diffs T2)) /\
  (outcome (reconcile sfreq subj T stim) = Raise AlignmentToleranceExceeded
   <->
   exists out1 stim',
     fix_missing_triggers sfreq T stim = (out1, Ok stim') /\
     length stim' = length T /\
     Exists (fun d => (threshold <= Qabs d)%Q)
            (onset_diffs (make_T2 sfreq subj stim' T))).

(** The gaps a left-to-right repair is expected to meet, at the
    positions [js] in ascending order: each position shows a gap over
    the threshold in the array as the insertions before it left it. *)
Fixpoint gaps_in_order (a b : list Q) (from : nat) (js : list nat) : bool :=
  match js with
  | [] => true
  | j :: js' =>
      (from <=? j)%nat && (j <? length a)%nat && (j <? length b)%nat
      && over_threshold a b j
      && gaps_in_order (py_insert j (synthesized a b j) a) b (S j) js'
  end.

(** ** Scenarios *)

Definition rows_at (ts : list Q) : list BehavRow :=
  map (fun t => mkBehavRow t []) ts.

Definition T4 : list BehavRow := rows_at [0; 1; 2; 3]%Q.
Definition T5 : list BehavRow := rows_at [0; 1; 2; 3; 4]%Q.
Definition T100 : list BehavRow := rows_at (repeat 0%Q 100).
Definition status_two_edges : list Q :=
  [0; 13824; 13824; 0; 13824; 13824]%Q.

(** One list is obtained from another by dropping entries. *)
Inductive subseq {A : Type} : list A -> list A -> Prop :=
| subseq_nil : subseq [] []
| subseq_skip (x : A) (l l' : list A) : subseq l l' -> subseq l (x :: l')
| subseq_keep (x : A) (l l' : list A) :
    subseq l l' -> subseq (x :: l) (x :: l').

(** The candidate list holds the rounded image of the seconds array,
    entry by entry. *)
Definition in_lock_step (sfreq : Q) (st : walk_state) : Prop :=
  stim_onset_sample st = map (fun t => py_round (sfreq * t)%Q) (a st).

(** The literal text each printed line starts with in the source. *)
Definition line_text (l : line) : string :=
  match l with
  | Reconstructing _ => "Reconstructing "
  | Triggers _ _ => "Triggers: "
  | Inserting _ _ => "Inserting pos:"
  | FoundCounts _ _ => "Found not enough events! "
  | Exceeding _ => "Event time differences (s) exceeding 0.11:"
  end.


(** * Files, configuration and the batch runner

    The code around the alignment: [preprocessing_config]
    ([preprocessing_config.py]), the first part of [run_preprocess]
    (lines 38-149 of [preprocessing.py]) and the batch functions
    [get_subject_list] and [run_preprocessing_pipeline] of
    [mne_run_all.py].

    A path is the list of its components.  A file system maps the paths
    that exist to a directory or to a file with its content.  Subject
    numbers are integers, as the batch runner passes them.  What the
    libraries compute from file contents is a parameter
    ([Libraries]). *)

Definition path : Type := list string.

Inductive node : Type :=
| Dir
| File (content : string).

Definition filesystem : Type := path -> option node.

Definition path_eqb (p q : path) : bool :=
  if list_eq_dec string_dec p q then true else false.

(** [p.exists()] *)
Definition fs_exists (fs : filesystem) (p : path) : bool :=
  match fs p with Some _ => true | None => false end.

(** [p.is_file()] *)
Definition fs_is_file (fs : filesystem) (p : path) : bool :=
  match fs p with Some (File _) => true | _ => false end.

(** [q] relative to [p], when [q] is [p] or lies below it. *)
Fixpoint relative_to (p q : path) : option path :=
  match p, q with
  | [], _ => Some q
  | c :: p', d :: q' => if String.eqb c d then relative_to p' q' else None
  | _ :: _, [] => None
  end.

(** [src.rename(dst)]: the node at [src], with everything below it, is
    found at [dst] afterwards and no longer at [src]. *)
Definition fs_rename (fs : filesystem) (src dst : path) : filesystem :=
  fun q =>
    match relative_to dst q with
    | Some rest => fs (src ++ rest)
    | None =>
        match relative_to src q with
        | Some _ => None
        | None => fs q
        end
    end.

(** [d] and the directories above it, the root excluded. *)
Definition self_and_parents (d : path) : list path :=
  map (fun k => firstn k d) (seq 1 (length d)).

(** [d.mkdir(parents=True, exist_ok=True)]: [None] when a file is in the
    way (the call raises), otherwise [d] and its parents are
    directories. *)
Definition fs_mkdir_parents (fs : filesystem) (d : path)
  : option filesystem :=
  if existsb (fs_is_file fs) (self_and_parents d) then None
  else Some (fun q =>
               if existsb (path_eqb q) (self_and_parents d) then Some Dir
               else fs q).

(** [p.parent] *)
Definition parent (p : path) : path := removelast p.

(** ** Configuration *)

Definition DataFrame : Type := list (string * list string).

Record group_info : Type := mkGroupInfo {
  name : string;
  eeg_system : string;
  n_subjects : nat;
  isgood : list (list Z);
  labnotebook : option DataFrame
}.

Record config : Type := mkConfig {
  project_root : path;
  project_path : path;
  data_dir : path;
  rawdata_dir : path;
  preproc_dir : path;
  HighPass : Q;
  LowPass : Q;
  downsample : Z;
  clean_rawdata : Z;
  participants_info : list group_info;
  setfile : Z;
  savemode : string;
  cosmofile : Z;
  overwrite : Z
}.

(** The five files of one subject. *)
Record subject_files : Type := mkSubjectFiles {
  source_behavfn : path;
  source_filename : path;
  raw_filename : path;
  behavfn : path;
  outfn : path
}.

(** What the model takes from outside: the home directory, what
    [pd.read_csv] makes of a file content ([None] when it raises), what
    the body of the [try] block of [preprocessing_config] makes of the
    lab notebook ([None]: it raises; [Some None]: it warns about the
    columns; [Some (Some g)]: it appends [g]), and what lines 151-297 of
    [run_preprocess] do once both input files are in place (the new file
    system, and the message of the exception they raise, if any). *)
Record Libraries : Type := mkLibraries {
  home : path;
  read_csv : string -> option DataFrame;
  infants_from : DataFrame -> option (option group_info);
  process : filesystem -> config -> string -> Z -> subject_files ->
            filesystem * option string
}.

Inductive input_kind : Type := Behavioural | Eeg.

(** The lines the file handling prints. *)
Inductive notice : Type :=
| WarnColumns
| WarnCouldNotLoad
| Preprocessing (subjectnr participant_group eeg : string)
| FileExists (p : path)
| Found (k : input_kind)
| Moving (k : input_kind)
| Moved (k : input_kind)
| NotFound (k : input_kind).

(** [list(range(1, 51)) for _ in range(20)] *)
Definition adults_info : group_info :=
  mkGroupInfo "adults" "Biosemix" 20
    (repeat (map Z.of_nat (seq 1 50)) 20) None.

(** [pd.read_csv(p)] on a file system. *)
Definition fs_read_csv (lib : Libraries) (fs : filesystem) (p : path)
  : option DataFrame :=
  match fs p with
  | Some (File content) => read_csv lib content
  | _ => None
  end.

Definition preprocessing_config (lib : Libraries) (fs : filesystem)
  (project_name : string) : list notice * config :=
  let project_root := home lib ++ ["Documents"; "PhD"; "Project"]%string in
  let project_path := project_root ++ [project_name] in
  let data_dir := project_path ++ ["data"%string] in
  let rawdata_dir := data_dir ++ ["raw"%string] in
  let preproc_dir := data_dir ++ ["preprocessed"%string] in
  let notebook_path := project_path ++ ["docs"; "LabNotebook.csv"]%string in
  let '(printed, infants) :=
    if negb (fs_is_file fs notebook_path) then
      match fs_read_csv lib fs notebook_path with
      | Some data_table =>
          match infants_from lib data_table with
          | Some (Some g) => ([], [g])
          | Some None => ([WarnColumns], [])
          | None => ([WarnCouldNotLoad], [])
          end
      | None => ([WarnCouldNotLoad], [])
      end
    else ([], []) in
  (printed,
   mkConfig project_root project_path data_dir rawdata_dir preproc_dir
     (1 # 10) 100 200 0 (infants ++ [adults_info]) 1 "onefile" 1 0).

(** ** The first part of [run_preprocess] *)

(** [f"{n:02d}"] *)
Definition format_02d (n : Z) : string :=
  let s := NilZero.string_of_int (Z.to_int n) in
  if (String.length s <? 2)%nat then ("0" ++ s)%string else s.

Definition files_of (cfg : config) (participant_group subjectnr : string)
  : subject_files :=
  let sub := ("sub-" ++ subjectnr)%string in
  let sourcedata := data_dir cfg ++ ["sourcedata"%string] in
  let eeg := rawdata_dir cfg ++ [participant_group; sub; "eeg"%string] in
  mkSubjectFiles
    (sourcedata ++ [(sub ++ "_task-targets_events.csv")%string])
    (sourcedata ++ [(sub ++ "_task-targets_eeg.bdf")%string])
    (eeg ++ [("sub" ++ subjectnr ++ ".bdf")%string])
    (eeg ++ [(sub ++ "_task-targets_events.tsv")%string])
    (preproc_dir cfg
     ++ [participant_group; sub; "mne"; (sub ++ "_mne_epo.fif")]%string).

Inductive located : Type :=
| Present
| Missing
| MkdirRaised.

(** One of the two blocks "check for ... file": the file is in the raw
    location, or it is moved there from the source location, or it is
    reported missing. *)
Definition bring_in (k : input_kind) (fs : filesystem) (src dst : path)
  : list notice * filesystem * located :=
  if fs_exists fs dst then ([Found k], fs, Present)
  else if fs_exists fs src then
    match fs_mkdir_parents fs (parent dst) with
    | Some fs1 => ([Moving k; Moved k], fs_rename fs1 src dst, Present)
    | None => ([Moving k], fs, MkdirRaised)
    end
  else ([NotFound k], fs, Missing).

Inductive py_exception : Type :=
| GroupNotFound (participant_group : string)
| MkdirFailed
| ProcessingFailed (message : string).

Inductive ending : Type :=
| ReturnedOutputExists
| ReturnedInputMissing (k : input_kind)
| Completed
| Raised (e : py_exception).

(** Lines 108-149: the output check and the two input checks. *)
Definition locate_files (fs : filesystem) (overwrite : Z)
  (f : subject_files) : list notice * filesystem * option ending :=
  if fs_exists fs (outfn f) && (overwrite =? 0)%Z then
    ([FileExists (outfn f)], fs, Some ReturnedOutputExists)
  else
    let '(out1, fs1, r1) :=
      bring_in Behavioural fs (source_behavfn f) (behavfn f) in
    match r1 with
    | Missing => (out1, fs1, Some (ReturnedInputMissing Behavioural))
    | MkdirRaised => (out1, fs1, Some (Raised MkdirFailed))
    | Present =>
        let '(out2, fs2, r2) :=
          bring_in Eeg fs1 (source_filename f) (raw_filename f) in
        (out1 ++ out2, fs2,
         match r2 with
         | Missing => Some (ReturnedInputMissing Eeg)
         | MkdirRaised => Some (Raised MkdirFailed)
         | Present => None
         end)
    end.

(** [next((g for g in l if g["name"] == group), None)] *)
Definition find_group (l : list group_info) (group : string)
  : option group_info :=
  find (fun g => String.eqb (name g) group) l.

(** [run_preprocess(project_name, subjectnr, participant_group,
    overwrite)] for an integer subject number. *)
Definition run_preprocess_files (lib : Libraries) (fs : filesystem)
  (project_name : string) (subjectnr : Z) (participant_group : string)
  (overwrite_arg : option Z) : list notice * filesystem * ending :=
  let '(out0, cfg) := preprocessing_config lib fs project_name in
  let overwrite :=
    match overwrite_arg with Some v => v | None => overwrite cfg end in
  match find_group (participants_info cfg) participant_group with
  | None => (out0, fs, Raised (GroupNotFound participant_group))
  | Some group_info =>
      let subjectnr_s := format_02d subjectnr in
      let out1 :=
        out0 ++ [Preprocessing subjectnr_s participant_group
                   (eeg_system group_info)] in
      let f := files_of cfg participant_group subjectnr_s in
      match locate_files fs overwrite f with
      | (out2, fs2, Some e) => (out1 ++ out2, fs2, e)
      | (out2, fs2, None) =>
          match process lib fs2 cfg participant_group subjectnr f with
          | (fs3, None) => (out1 ++ out2, fs3, Completed)
          | (fs3, Some msg) =>
              (out1 ++ out2, fs3, Raised (ProcessingFailed msg))
          end
      end
  end.

(** ** The batch runner *)

Record PipelineConfig : Type := mkPipelineConfig {
  pipeline_project_name : string;
  groups_to_run : list (string * bool);
  subjects_to_run : list Z
}.

(** [[k for k, v in d.items() if v]] *)
Definition active (d : list (string * bool)) : list string :=
  map fst (filter snd d).

Definition get_active_groups (c : PipelineConfig) : list string :=
  active (groups_to_run c).

Definition get_subject_list (cfg : config) (c : PipelineConfig)
  (group_name : string) : list Z :=
  match subjects_to_run c with
  | _ :: _ => subjects_to_run c
  | [] =>
      match find_group (participants_info cfg) group_name with
      | Some group_info =>
          map Z.of_nat (seq 1 (n_subjects group_info))
      | None => []
      end
  end.

(** One line of the batch log per subject: its group, its number and
    whether [run_preprocess] returned ([true]) or raised ([false]). *)
Definition attempt : Type := (string * Z * bool)%type.

Record tally : Type := mkTally {
  tally_fs : filesystem;
  attempts : list attempt;
  success_count : nat;
  fail_count : nat
}.

Definition returned (e : ending) : bool :=
  match e with Raised _ => false | _ => true end.

(** The inner loop, over the subjects of one group. *)
Fixpoint run_subjects (lib : Libraries) (project_name group_name : string)
  (subject_list : list Z) (t : tally) : tally :=
  match subject_list with
  | [] => t
  | subjectnr :: rest =>
      let '(_, fs', e) :=
        run_preprocess_files lib (tally_fs t) project_name subjectnr
          group_name (Some 1) in
      run_subjects lib project_name group_name rest
        (if returned e
         then mkTally fs' (attempts t ++ [(group_name, subjectnr, true)])
                (S (success_count t)) (fail_count t)
         else mkTally fs' (attempts t ++ [(group_name, subjectnr, false)])
                (success_count t) (S (fail_count t)))
  end.

(** The outer loop, over the active groups. *)
Fixpoint run_groups (lib : Libraries) (cfg : config) (c : PipelineConfig)
  (groups : list string) (t : tally) : tally :=
  match groups with
  | [] => t
  | group_name :: rest =>
      run_groups lib cfg c rest
        (run_subjects lib (pipeline_project_name c) group_name
           (get_subject_list cfg c group_name) t)
  end.

Definition run_preprocessing_pipeline (lib : Libraries) (fs : filesystem)
  (c : PipelineConfig) : tally :=
  let '(_, cfg) := preprocessing_config lib fs (pipeline_project_name c) in
  run_groups lib cfg c (get_active_groups c) (mkTally fs [] 0 0).

(** The subjects a batch is to visit, group by group. *)
Definition planned (cfg : config) (c : PipelineConfig)
  : list (string * Z) :=
  flat_map (fun g => map (pair g) (get_subject_list cfg c g))
           (get_active_groups c).

Definition count_ok (l : list attempt) : nat :=
  length (filter (fun x => snd x) l).

Definition count_failed (l : list attempt) : nat :=
  length (filter (fun x => negb (snd x)) l).

(** * Labels and folds for decoding

    [prepare_decoding_data] of [decoding.py] turns the behavioural table
    written by the preprocessing into labels and cross-validation
    groups; [run_temporal_decoding] splits the trials with
    [LeaveOneGroupOut].  Integer columns hold integers ([Z]), the
    stimulus size is a rational.  [np.median], [np.percentile] and
    [np.digitize] are parameters ([Numpy]). *)

Inductive decoding_exn : Type :=
| DecodeValueError (message : string)
| DecodeKeyError (column : string)
| MaskIndexError.

Inductive raised (A : Type) : Type :=
| Returns (x : A)
| Raises (e : decoding_exn).
Arguments Returns {A} x.
Arguments Raises {A} e.

(** The columns [prepare_decoding_data] looks at; a column that the
    table does not have is [None]. *)
Record behav_table : Type := mkBehavTable {
  istarget : option (list Z);
  stimnumber : option (list Z);
  stimsize : option (list Q);
  blocksequencenumber : option (list Z)
}.

(** An integer or a floating-point label array. *)
Inductive labels : Type :=
| IntLabels (y : list Z)
| FloatLabels (y : list Q).

Record Numpy : Type := mkNumpy {
  np_median : list Q -> Q;
  np_percentile : list Q -> Q * Q;
  np_digitize : list Q -> Q * Q -> list Z
}.

(** The entries of [l] at the true positions of [mask]. *)
Fixpoint compress {A : Type} (mask : list bool) (l : list A) : list A :=
  match mask, l with
  | m :: mask', x :: l' =>
      if m then x :: compress mask' l' else compress mask' l'
  | _, _ => []
  end.

(** [behav_data[idx].reset_index(drop=True)] *)
Definition filter_rows (idx : list bool) (t : behav_table) : behav_table :=
  mkBehavTable (option_map (compress idx) (istarget t))
               (option_map (compress idx) (stimnumber t))
               (option_map (compress idx) (stimsize t))
               (option_map (compress idx) (blocksequencenumber t)).

(** [X[idx, :, :]]: the mask must have one entry per epoch. *)
Definition mask_index {A : Type} (idx : list bool) (X : list A)
  : raised (list A) :=
  if (length idx =? length X)%nat then Returns (compress idx X)
  else Raises MaskIndexError.

Definition Q_eq_dec (x y : Q) : {x = y} + {x <> y}.
Proof. decide equality; [apply Pos.eq_dec|apply Z.eq_dec]. Defined.

(** [len(np.unique(y))] *)
Definition n_unique (y : labels) : nat :=
  match y with
  | IntLabels l => length (nodup Z.eq_dec l)
  | FloatLabels l => length (nodup Q_eq_dec (map Qred l))
  end.

(** [math.ceil(x / 8)] *)
Definition category_of (x : Z) : Z := Qceiling (inject_Z x / 8).

(** [x % 8] *)
Definition rotation_of (x : Z) : Z := x mod 8.

Definition column {A : Type} (c : option (list A)) (name : string)
  : raised (list A) :=
  match c with
  | Some l => Returns l
  | None => Raises (DecodeKeyError name)
  end.

Definition labels_for (np : Numpy) (behav_data : behav_table)
  (decode_type : string) : raised labels :=
  if String.eqb decode_type "category" then
    match column (stimnumber behav_data) "stimnumber" with
    | Returns l => Returns (IntLabels (map category_of l))
    | Raises e => Raises e
    end
  else if String.eqb decode_type "identity" then
    match column (stimnumber behav_data) "stimnumber" with
    | Returns l => Returns (IntLabels l)
    | Raises e => Raises e
    end
  else if String.eqb decode_type "size_2class" then
    match stimsize behav_data with
    | Some y =>
        if (2 <? n_unique (FloatLabels y))%nat then
          Returns (IntLabels
                     (map (fun v => if Qltb (np_median np y) v then 1 else 0)
                          y))
        else Returns (FloatLabels y)
    | None =>
        Raises (DecodeValueError
                  "'stimsize' column not found in behavioral data")
    end
  else if String.eqb decode_type "size_3class" then
    match stimsize behav_data with
    | Some y =>
        if negb (n_unique (FloatLabels y) =? 3)%nat then
          Returns (IntLabels (np_digitize np y (np_percentile np y)))
        else Returns (FloatLabels y)
    | None =>
        Raises (DecodeValueError
                  "'stimsize' column not found in behavioral data")
    end
  else Raises (DecodeValueError ("Unknown decode_type: " ++ decode_type)).

Definition groups_for (behav_data : behav_table) (cv_scheme : string)
  : raised (list Z) :=
  if String.eqb cv_scheme "one_rotation_out" then
    match column (stimnumber behav_data) "stimnumber" with
    | Returns l => Returns (map rotation_of l)
    | Raises e => Raises e
    end
  else if String.eqb cv_scheme "one_block_out" then
    match blocksequencenumber behav_data with
    | Some l => Returns l
    | None =>
        Raises (DecodeValueError "'blocksequencenumber' column not found")
    end
  else Raises (DecodeValueError ("Unknown cv_scheme: " ++ cv_scheme)).

Definition prepare_decoding_data {E : Type} (np : Numpy) (epochs : list E)
  (behav_data : behav_table) (decode_type cv_scheme : string)
  : raised (list E * labels * list Z * nat) :=
  match
    match istarget behav_data with
    | Some col =>
        let idx := map (fun v => (v =? 0)%Z) col in
        match mask_index idx epochs with
        | Returns X => Returns (filter_rows idx behav_data, X)
        | Raises e => Raises e
        end
    | None => Returns (behav_data, epochs)
    end
  with
  | Raises e => Raises e
  | Returns (behav_data, X) =>
      match labels_for np behav_data decode_type with
      | Raises e => Raises e
      | Returns y =>
          match groups_for behav_data cv_scheme with
          | Raises e => Raises e
          | Returns groups => Returns (X, y, groups, n_unique y)
          end
      end
  end.

(** The positions of [groups] whose entry satisfies [f]. *)
Definition indices_where (f : Z -> bool) (groups : list Z) : list nat :=
  map fst (filter (fun p => f (snd p))
             (combine (seq 0 (length groups)) groups)).

Fixpoint insert_unique (g : Z) (l : list Z) : list Z :=
  match l with
  | [] => [g]
  | h :: t =>
      if g <? h then g :: l
      else if g =? h then l
      else h :: insert_unique g t
  end.

(** [np.unique(groups)] *)
Definition np_unique (groups : list Z) : list Z :=
  fold_right insert_unique [] groups.

(** [LeaveOneGroupOut().split(X, y, groups)]: one fold per group value,
    the trials of the group being the test set. *)
Definition LeaveOneGroupOut (groups : list Z)
  : raised (list (list nat * list nat)) :=
  let u := np_unique groups in
  if (length u <=? 1)%nat then
    Raises (DecodeValueError
              "The groups parameter contains fewer than 2 unique groups")
  else
    Returns (map (fun g =>
                    (indices_where (fun x => negb (x =? g)) groups,
                     indices_where (Z.eqb g) groups))
                 u).

(** Every column the table has holds [n] entries. *)
Definition has_rows (n : nat) (t : behav_table) : Prop :=
  (forall l, istarget t = Some l -> length l = n) /\
  (forall l, stimnumber t = Some l -> length l = n) /\
  (forall l, stimsize t = Some l -> length l = n) /\
  (forall l, blocksequencenumber t = Some l -> length l = n).

Definition label_count (y : labels) : nat :=
  match y with
  | IntLabels l => length l
  | FloatLabels l => length l
  end.

Definition no_numpy : Numpy :=
  mkNumpy (fun _ => 0%Q) (fun _ => (0%Q, 0%Q)) (fun _ _ => []).

(** Sixteen trials: stimuli 1 to 16, the last one a target. *)
Definition sixteen_trials : behav_table :=
  mkBehavTable (Some (repeat 0 15 ++ [1]))
               (Some (map Z.of_nat (seq 1 16))) None None.

(** * Running the decoding

    [run_decoding] and [run_temporal_decoding] of [decoding.py] with the
    configuration of [viewpoint_decoding_config]
    ([viewpoint_decoding_config.py]).  A configuration is a dictionary;
    [cfg[k]] raises [KeyError] for a key it does not have.  Printing is
    left out.  What the libraries do with data (reading, plotting,
    cross-validating, and the part of the loop body after the scores are
    computed) is a parameter ([DecodingLibraries]). *)

#[warnings="-register-all"]
Inductive cfg_value : Type :=
| VBool (b : bool)
| VInt (n : Z)
| VString (s : string)
| VPath (p : path)
| VDict (d : list (string * cfg_value))
| VData.

Definition pydict : Type := list (string * cfg_value).

(** [d.get(k)] *)
Fixpoint dict_get (d : pydict) (k : string) : option cfg_value :=
  match d with
  | [] => None
  | (k', v) :: d' => if String.eqb k k' then Some v else dict_get d' k
  end.

(** The truth value of a configuration entry; [VData] stands for the
    non-empty tables of the configuration. *)
Definition truthy (v : cfg_value) : bool :=
  match v with
  | VBool b => b
  | VInt n => negb (n =? 0)
  | VString s => negb (String.eqb s "")
  | VPath _ => true
  | VDict d => match d with [] => false | _ => true end
  | VData => true
  end.

(** The keys [viewpoint_decoding_config] sets, after creating the
    results and figures directories; [None] when [mkdir] raises. *)
Definition viewpoint_decoding_config (lib : Libraries) (fs : filesystem)
  (project_name : string) : option (filesystem * pydict) :=
  let project_path :=
    home lib ++ ["Documents"; "PhD"; "Project"; project_name]%string in
  let preproc_dir := project_path ++ ["data"; "preprocessed"]%string in
  let results_dir :=
    project_path ++ ["data"; "derivatives"; "results"]%string in
  let figures_dir := results_dir ++ ["figures"%string] in
  match fs_mkdir_parents fs results_dir with
  | None => None
  | Some fs1 =>
      match fs_mkdir_parents fs1 figures_dir with
      | None => None
      | Some fs2 =>
          Some (fs2,
                [("project_path", VPath project_path);
                 ("preproc_dir", VPath preproc_dir);
                 ("results_dir", VPath results_dir);
                 ("figures_dir", VPath figures_dir);
                 ("total_nstimuli", VInt 112);
                 ("stimnum", VData);
                 ("slice_method", VString "blocks");
                 ("decode_types", VData);
                 ("classifier", VString "lda");
                 ("scoring", VString "balanced_accuracy");
                 ("n_jobs", VInt (-1));
                 ("participants_info", VData);
                 ("plot_results", VBool true);
                 ("savefile", VBool true);
                 ("overwrite", VBool true)]%string)
      end
  end.

Definition scores : Type := list (list Q).

Record DecodingLibraries (E : Type) : Type := mkDecodingLibraries {
  numpy : Numpy;
  read_epochs : string -> option (list E);
  read_tsv : string -> option behav_table;
  plot_joint : list E -> option string;
  cross_val_multiscore :
    string -> list E -> labels -> list Z -> option scores;
  finish_analysis :
    filesystem -> pydict -> string -> scores -> filesystem * option string;
  save_combined :
    filesystem -> pydict -> list string -> filesystem * option string
}.
Arguments numpy {E} d.
Arguments read_epochs {E} d.
Arguments read_tsv {E} d.
Arguments plot_joint {E} d.
Arguments cross_val_multiscore {E} d.
Arguments finish_analysis {E} d.
Arguments save_combined {E} d.

Inductive run_exn : Type :=
| ResultsDirFailed
| FileNotFoundError (p : path)
| KeyError (key : string)
| TypeError
| UnknownClassifier (classifier_type : string)
| UnknownMethod
| LibraryRaised (call : string).

Inductive ran (A : Type) : Type :=
| Done (x : A)
| Failed (e : run_exn).
Arguments Done {A} x.
Arguments Failed {A} e.

(** [cfg[k]] *)
Definition dict_item (d : pydict) (k : string) : ran cfg_value :=
  match dict_get d k with
  | Some v => Done v
  | None => Failed (KeyError k)
  end.

(** [get_classifier(classifier_type, n_classes)]: it returns for "lda",
    "logreg" and "svm" and raises a [ValueError] otherwise. *)
Definition get_classifier (classifier_type : cfg_value) : ran string :=
  match classifier_type with
  | VString s =>
      if String.eqb s "lda" || String.eqb s "logreg" || String.eqb s "svm"
      then Done s
      else Failed (UnknownClassifier s)
  | _ => Failed (UnknownClassifier "")
  end.

Definition run_temporal_decoding {E : Type} (dl : DecodingLibraries E)
  (X : list E) (y : labels) (groups : list Z) (cfg : pydict)
  : ran scores :=
  match dict_item cfg "classifier" with
  | Failed e => Failed e
  | Done c =>
  match get_classifier c with
  | Failed e => Failed e
  | Done _ =>
  match dict_item cfg "temporal_decoding" with
  | Failed e => Failed e
  | Done (VDict td) =>
      match dict_item td "method" with
      | Failed e => Failed e
      | Done (VString m) =>
          if String.eqb m "sliding" || String.eqb m "generalizing" then
            match dict_item cfg "n_jobs" with
            | Failed e => Failed e
            | Done _ =>
            match dict_item cfg "scoring" with
            | Failed e => Failed e
            | Done _ =>
            match dict_item td "verbose" with
            | Failed e => Failed e
            | Done _ =>
                match cross_val_multiscore dl m X y groups with
                | Some sc => Done sc
                | None => Failed (LibraryRaised "cross_val_multiscore")
                end
            end end end
          else Failed UnknownMethod
      | Done _ => Failed UnknownMethod
      end
  | Done _ => Failed TypeError
  end end end.

(** [fs] with a file of the given content at [p]. *)
Definition fs_write (fs : filesystem) (p : path) (content : string)
  : filesystem :=
  fun q => if path_eqb q p then Some (File content) else fs q.

Definition fs_read (fs : filesystem) (p : path) : option string :=
  match fs p with
  | Some (File content) => Some content
  | _ => None
  end.

(** The two nested loops of [run_decoding], over the pairs of a decoding
    type and a cross-validation scheme still to run: the file system and
    the names of the analyses recorded so far, or the exception that
    ends the call. *)
Fixpoint run_analyses {E : Type} (dl : DecodingLibraries E)
  (cfg_decode : pydict) (results_dir : path) (subjectnr : string)
  (overwrite : bool) (epochs : list E) (behav_data : behav_table)
  (todo : list (string * string)) (fs : filesystem) (results : list string)
  : ran (filesystem * list string) :=
  match todo with
  | [] => Done (fs, results)
  | (decode_type, cv_scheme) :: rest =>
      let analysis_name := (decode_type ++ "_" ++ cv_scheme)%string in
      let result_file :=
        results_dir
        ++ [("sub-" ++ subjectnr ++ "_" ++ analysis_name
             ++ "_results.csv")%string] in
      let continue :=
        run_analyses dl cfg_decode results_dir subjectnr overwrite epochs
          behav_data rest in
      if fs_exists fs result_file && negb overwrite then continue fs results
      else
        match prepare_decoding_data (numpy dl) epochs behav_data
                decode_type cv_scheme with
        | Raises _ => continue fs results
        | Returns (X, y, groups, n_classes) =>
            match run_temporal_decoding dl X y groups cfg_decode with
            | Failed e => Failed e
            | Done sc =>
                match finish_analysis dl fs cfg_decode analysis_name sc
                with
                | (fs', None) => continue fs' (results ++ [analysis_name])
                | (_, Some call) => Failed (LibraryRaised call)
                end
            end
        end
  end.

(** [run_decoding(project_name, subjectnr, participant_group,
    decode_types, cv_schemes, overwrite)] for an integer subject
    number: the names of the analyses in the returned dictionary, or the
    exception raised. *)
Definition run_decoding {E : Type} (lib : Libraries)
  (dl : DecodingLibraries E) (fs : filesystem) (project_name : string)
  (subjectnr : Z) (participant_group : string)
  (decode_types cv_schemes : option (list string))
  (overwrite_arg : option bool) : ran (filesystem * list string) :=
  let cfg_preproc := snd (preprocessing_config lib fs project_name) in
  match viewpoint_decoding_config lib fs project_name with
  | None => Failed ResultsDirFailed
  | Some (fs1, cfg_decode) =>
  match
    match overwrite_arg with
    | Some b => Done b
    | None =>
        match dict_item cfg_decode "overwrite" with
        | Done v => Done (truthy v)
        | Failed e => Failed e
        end
    end
  with
  | Failed e => Failed e
  | Done overwrite =>
  let s := format_02d subjectnr in
  let f := files_of cfg_preproc participant_group s in
  let epochs_file := outfn f in
  let behav_file := behavfn f in
  if negb (fs_exists fs1 epochs_file) then
    Failed (FileNotFoundError epochs_file)
  else if negb (fs_exists fs1 behav_file) then
    Failed (FileNotFoundError behav_file)
  else
  match option_map (read_epochs dl) (fs_read fs1 epochs_file) with
  | Some (Some epochs) =>
  match option_map (read_tsv dl) (fs_read fs1 behav_file) with
  | Some (Some behav_data) =>
  match
    if match dict_get cfg_decode "plot_results" with
       | Some v => truthy v | None => false end
       && match dict_get cfg_decode "savefile" with
          | Some v => truthy v | None => false end
    then
      match plot_joint dl epochs with
      | None => Failed (LibraryRaised "plot_joint")
      | Some png =>
          match dict_item cfg_decode "figures_dir" with
          | Done (VPath figures_dir) =>
              Done (fs_write fs1
                      (figures_dir ++ [("sub-" ++ s ++ "_epochs.png")%string])
                      png)
          | Done _ => Failed TypeError
          | Failed e => Failed e
          end
      end
    else Done fs1
  with
  | Failed e => Failed e
  | Done fs2 =>
  let decode_types :=
    match decode_types with Some l => l | None => ["category"%string] end in
  let cv_schemes :=
    match cv_schemes with
    | Some l => l | None => ["one_rotation_out"%string] end in
  match dict_item cfg_decode "results_dir" with
  | Done (VPath results_dir) =>
  match run_analyses dl cfg_decode results_dir s overwrite epochs
          behav_data (list_prod decode_types cv_schemes) fs2 [] with
  | Failed e => Failed e
  | Done (fs3, results) =>
      match dict_item cfg_decode "save_results" with
      | Failed e => Failed e
      | Done v =>
          if truthy v then
            match save_combined dl fs3 cfg_decode results with
            | (fs4, None) => Done (fs4, results)
            | (_, Some call) => Failed (LibraryRaised call)
            end
          else Done (fs3, results)
      end
  end
  | Done _ => Failed TypeError
  | Failed e => Failed e
  end
  end
  | _ => Failed (LibraryRaised "read_csv")
  end
  | _ => Failed (LibraryRaised "read_epochs")
  end
  end end.

(** ** Scenarios for files and batches *)

Definition no_libraries : Libraries :=
  mkLibraries [] (fun _ => None) (fun _ => None)
    (fun fs _ _ _ _ => (fs, None)).

Definition empty_fs : filesystem := fun _ => None.

(** The files of subject [subjectnr] of a group under the configuration
    of a project. *)
Definition configured_files (lib : Libraries) (fs : filesystem)
  (project_name participant_group : string) (subjectnr : Z)
  : subject_files :=
  files_of (snd (preprocessing_config lib fs project_name))
    participant_group (format_02d subjectnr).

Definition data_root (lib : Libraries) (project_name : string) : path :=
  home lib ++ ["Documents"; "PhD"; "Project"; project_name; "data"]%string.

(** The paths of a subject do not lie on or below one another where the
    file handling relies on it. *)
Definition independent (f : subject_files) : Prop :=
  (relative_to (raw_filename f) (behavfn f) = None /\
   relative_to (source_filename f) (behavfn f) = None) /\
  (relative_to (behavfn f) (outfn f) = None /\
   relative_to (source_behavfn f) (outfn f) = None /\
   relative_to (outfn f) (parent (behavfn f)) = None /\
   relative_to (raw_filename f) (outfn f) = None /\
   relative_to (source_filename f) (outfn f) = None /\
   relative_to (outfn f) (parent (raw_filename f)) = None) /\
  (relative_to (behavfn f) (source_filename f) = None /\
   relative_to (source_behavfn f) (source_filename f) = None /\
   relative_to (source_filename f) (parent (behavfn f)) = None).

Definition fs_with_source : filesystem :=
  fun q =>
    if path_eqb q
         (configured_files no_libraries empty_fs "viewpoint" "adults" 1)
         .(source_behavfn)
    then Some (File "time_stimon") else None.

Definition fs_with_both : filesystem :=
  fun q =>
    if path_eqb q
         (configured_files no_libraries empty_fs "viewpoint" "adults" 1)
         .(behavfn)
    then Some (File "time_stimon")
    else if path_eqb q
              (configured_files no_libraries empty_fs "viewpoint"
                 "adults" 1).(raw_filename)
    then Some (File "bdf") else None.

Definition infants_and_adults : PipelineConfig :=
  mkPipelineConfig "viewpoint"
    [("infants"%string, true); ("adults"%string, true)] [1].

Definition all_adults : PipelineConfig :=
  mkPipelineConfig "viewpoint"
    [("infants"%string, false); ("adults"%string, true)] [].

(** Whether the data of an analysis can be prepared. *)
Definition preparable {E : Type} (dl : DecodingLibraries E)
  (epochs : list E) (behav_data : behav_table) (a : string * string)
  : bool :=
  match prepare_decoding_data (numpy dl) epochs behav_data (fst a) (snd a)
  with
  | Returns _ => true
  | Raises _ => false
  end.

Definition no_decoding : DecodingLibraries nat :=
  mkDecodingLibraries nat no_numpy
    (fun _ => Some (seq 0 16)) (fun _ => Some sixteen_trials)
    (fun _ => Some ""%string) (fun _ _ _ _ => Some [])
    (fun fs _ _ _ => (fs, None)) (fun fs _ _ => (fs, None)).

(** A file system with the epochs and the behavioural table of adult
    subject 1 of project "viewpoint". *)
Definition fs_preprocessed : filesystem :=
  fun q =>
    if path_eqb q
         (configured_files no_libraries empty_fs "viewpoint" "adults" 1)
         .(behavfn)
    then Some (File "tsv")
    else if path_eqb q
              (configured_files no_libraries empty_fs "viewpoint"
                 "adults" 1).(outfn)
    then Some (File "fif") else None.

(** * Proofs *)

(** ** Comparisons on rationals *)

Lemma Qltb_true (x y : Q) : Qltb x y = true <-> (x < y)%Q.
Proof.
  unfold Qltb. rewrite Qlt_alt.
  destruct (x ?= y)%Q; split; congruence.
Qed.

Lemma Qltb_false (x y : Q) : Qltb x y = false <-> (y <= x)%Q.
Proof.
  split; intros H.
  - apply Qnot_lt_le. rewrite <- Qltb_true. congruence.
  - destruct (Qltb x y) eqn:E; trivial.
    apply Qltb_true in E. exfalso. exact (Qlt_not_le _ _ E H).
Qed.

(** ** numpy primitives *)

Lemma nth_error_np_diff (l : list Q) (n : nat) :
  nth_error (np_diff l) n =
  match nth_error l n, nth_error l (S n) with
  | Some x, Some y => Some (y - x)%Q
  | _, _ => None
  end.
Proof.
  revert n. induction l as [|x0 [|x1 tl] IH]; intros n.
  - destruct n; reflexivity.
  - destruct n as [|[|n]]; reflexivity.
  - destruct n as [|n].
    + reflexivity.
    + change (np_diff (x0 :: x1 :: tl))
        with ((x1 - x0)%Q :: np_diff (x1 :: tl)).
      cbn [nth_error]. rewrite IH. reflexivity.
Qed.

Lemma length_np_diff (l : list Q) : length (np_diff l) = (length l - 1)%nat.
Proof.
  induction l as [|x0 [|x1 tl] IH]; try reflexivity.
  change (np_diff (x0 :: x1 :: tl)) with ((x1 - x0)%Q :: np_diff (x1 :: tl)).
  cbn [length] in *. lia.
Qed.

Lemma In_np_nonzero_from (m : list bool) (k i : Z) :
  In i (np_nonzero_from k m) <->
  k <= i /\ nth_error m (Z.to_nat (i - k)) = Some true.
Proof.
  revert k. induction m as [|c m IH]; intros k; cbn [np_nonzero_from].
  - split; [intros [] | intros [_ H]].
    destruct (Z.to_nat (i - k)); discriminate.
  - assert (Hrec : In i (np_nonzero_from (k + 1) m) <->
                   k < i /\ nth_error (c :: m) (Z.to_nat (i - k)) = Some true).
    { rewrite IH. split; intros [Hle Hn]; (split; [lia|]).
      - replace (Z.to_nat (i - k)) with (S (Z.to_nat (i - (k + 1)))) by lia.
        exact Hn.
      - replace (Z.to_nat (i - k)) with (S (Z.to_nat (i - (k + 1)))) in Hn
          by lia.
        exact Hn. }
    destruct c; cbn [In]; rewrite Hrec.
    + split.
      * intros [<- | [Hlt Hn]]; [|split; [lia|exact Hn]].
        split; [lia|]. replace (k - k) with 0 by lia. reflexivity.
      * intros [Hle Hn]. destruct (Z.eq_dec k i) as [->|Hne]; [now left|].
        right. split; [lia|exact Hn].
    + split.
      * intros [Hlt Hn]. split; [lia|exact Hn].
      * intros [Hle Hn]. split; [|exact Hn].
        destruct (Z.eq_dec k i) as [->|Hne]; [|lia].
        replace (i - i) with 0 in Hn by lia. discriminate.
Qed.

Lemma np_nonzero_from_sorted (m : list bool) (k : Z) :
  StronglySorted Z.lt (np_nonzero_from k m).
Proof.
  revert k. induction m as [|c m IH]; intros k; cbn [np_nonzero_from].
  - constructor.
  - destruct c; [|apply IH].
    constructor; [apply IH|].
    apply Forall_forall. intros i Hi.
    apply In_np_nonzero_from in Hi. lia.
Qed.

Lemma StronglySorted_lt_NoDup (l : list Z) :
  StronglySorted Z.lt l -> NoDup l.
Proof.
  induction 1 as [|x l _ IH Hall]; constructor; [|exact IH].
  intros Hin. rewrite Forall_forall in Hall.
  specialize (Hall _ Hin). lia.
Qed.

(** ** Trigger detection *)

Lemma In_detect (stim_data : list Q) (i : Z) :
  In i (detect_stim_onset_sample stim_data) <-> edge_at stim_data i.
Proof.
  unfold detect_stim_onset_sample, np_nonzero, edge_at.
  rewrite In_np_nonzero_from, Z.sub_0_r, nth_error_map, nth_error_np_diff.
  split.
  - intros [Hi Hn]. split; [exact Hi|].
    destruct (nth_error stim_data (Z.to_nat i)) as [x|]; [|discriminate].
    destruct (nth_error stim_data (S (Z.to_nat i))) as [y|]; [|discriminate].
    exists x, y. repeat split. apply Qeq_bool_iff.
    cbn in Hn. congruence.
  - intros [Hi (x & y & -> & -> & Heq)]. split; [exact Hi|].
    cbn. f_equal. apply Qeq_bool_iff. exact Heq.
Qed.

(** C7.  The detector returns exactly the sample indices at which the
    Status channel rises by the target delta, in strictly ascending
    order and without duplicates; when no index matches, the result is
    the empty list.  Being a function of [stim_data] alone, it has no
    other effect. *)
Theorem C7_detector_exact_ascending (stim_data : list Q) :
  (forall i, In i (detect_stim_onset_sample stim_data) <->
             edge_at stim_data i) /\
  StronglySorted Z.lt (detect_stim_onset_sample stim_data) /\
  NoDup (detect_stim_onset_sample stim_data) /\
  ((forall i, ~ edge_at stim_data i) ->
   detect_stim_onset_sample stim_data = []).
Proof.
  split; [apply In_detect|].
  assert (Hs : StronglySorted Z.lt (detect_stim_onset_sample stim_data))
    by apply np_nonzero_from_sorted.
  split; [exact Hs|]. split; [apply StronglySorted_lt_NoDup, Hs|].
  intros Hnone.
  destruct (detect_stim_onset_sample stim_data) as [|i l] eqn:E; trivial.
  exfalso. apply (Hnone i). apply In_detect. rewrite E. now left.
Qed.

Lemma C7_detector_witness :
  detect_stim_onset_sample [7; 7]%Q = [] /\
  (In 2 (detect_stim_onset_sample [0; 13824; 0; 13824; 13824]%Q) <->
   edge_at [0; 13824; 0; 13824; 13824]%Q 2).
Proof.
  split.
  - destruct (C7_detector_exact_ascending [7; 7]%Q) as (_ & _ & _ & H).
    apply H. intros i [_ (x & y & Hx & Hy & Heq)].
    destruct (Z.to_nat i) as [|[|n]]; try discriminate.
    cbn in Hx, Hy. injection Hx as <-. injection Hy as <-.
    vm_compute in Heq. discriminate.
  - destruct (C7_detector_exact_ascending [0; 13824; 0; 13824; 13824]%Q)
      as (H & _).
    apply H.
Defined.

(** ** Python lists *)

Lemma py_index_Some {A} (l : list A) (j : nat) (x : A) :
  nth_error l j = Some x -> py_index l j = ([], Ok x).
Proof. unfold py_index. now intros ->. Qed.

Lemma py_index_None {A} (l : list A) (j : nat) :
  nth_error l j = None -> py_index l j = ([], Raise IndexError).
Proof. unfold py_index. now intros ->. Qed.

Lemma length_py_insert {A} (j : nat) (x : A) (l : list A) :
  length (py_insert j x l) = S (length l).
Proof.
  unfold py_insert. rewrite length_app. cbn [length].
  rewrite length_firstn, length_skipn. lia.
Qed.

Lemma nth_error_py_insert_lt {A} (j i : nat) (v x : A) (l : list A) :
  (i < j)%nat -> nth_error l i = Some x ->
  nth_error (py_insert j v l) i = Some x.
Proof.
  intros Hij Hx. unfold py_insert.
  assert (i < length l)%nat by (apply nth_error_Some; congruence).
  rewrite nth_error_app1 by (rewrite length_firstn; lia).
  rewrite nth_error_firstn.
  destruct (Nat.ltb_spec i j); [exact Hx|lia].
Qed.

Lemma nth_error_py_insert_eq {A} (j : nat) (v : A) (l : list A) :
  (j <= length l)%nat -> nth_error (py_insert j v l) j = Some v.
Proof.
  intros Hj. unfold py_insert.
  rewrite nth_error_app2 by (rewrite length_firstn; lia).
  rewrite length_firstn. replace (j - Nat.min j (length l))%nat with O by lia.
  reflexivity.
Qed.

Lemma nth_error_py_insert_gt {A} (j i : nat) (v : A) (l : list A) :
  (j <= i)%nat -> (j <= length l)%nat ->
  nth_error (py_insert j v l) (S i) = nth_error l i.
Proof.
  intros Hji Hj. unfold py_insert.
  rewrite nth_error_app2 by (rewrite length_firstn; lia).
  rewrite length_firstn.
  replace (S i - Nat.min j (length l))%nat with (S (i - j)) by lia.
  cbn [nth_error]. rewrite nth_error_skipn. f_equal. lia.
Qed.

(** ** The loop body *)

Lemma walk_step_in_range (sfreq : Q) (b : list Q) (j : nat) (st : walk_state) :
  (1 <= j)%nat -> (j < length (a st))%nat -> (j < length b)%nat ->
  walk_step sfreq b j st =
  if over_threshold (a st) b j
  then ([Inserting j (synthesized (a st) b j)], Ok (insert_at sfreq b j st))
  else ([], Ok st).
Proof.
  intros H1 Ha Hb.
  destruct (nth_error (a st) j) as [aj|] eqn:Eaj;
    [|apply nth_error_None in Eaj; lia].
  destruct (nth_error (a st) (j - 1)) as [aj1|] eqn:Eaj1;
    [|apply nth_error_None in Eaj1; lia].
  destruct (nth_error b j) as [bj|] eqn:Ebj;
    [|apply nth_error_None in Ebj; lia].
  destruct (nth_error b (j - 1)) as [bj1|] eqn:Ebj1;
    [|apply nth_error_None in Ebj1; lia].
  unfold over_threshold, insert_at, synthesized.
  rewrite (nth_error_nth _ _ 0%Q Eaj), (nth_error_nth _ _ 0%Q Eaj1),
    (nth_error_nth _ _ 0%Q Ebj), (nth_error_nth _ _ 0%Q Ebj1).
  unfold walk_step, gaps.
  rewrite (py_index_Some _ _ _ Eaj), (py_index_Some _ _ _ Eaj1),
    (py_index_Some _ _ _ Ebj), (py_index_Some _ _ _ Ebj1).
  cbn [bind ret app].
  destruct (Qltb threshold (aj - aj1 - (bj - bj1))); [|reflexivity].
  cbn [bind print ret app].
  rewrite (py_index_Some _ (j - 1)%nat aj1)
    by (apply nth_error_py_insert_lt; [lia|exact Eaj1]).
  reflexivity.
Qed.

Lemma walk_step_out_of_range (sfreq : Q) (b : list Q) (j : nat)
  (st : walk_state) :
  (1 <= j)%nat -> (length (a st) <= j)%nat \/ (length b <= j)%nat ->
  walk_step sfreq b j st = ([], Raise IndexError).
Proof.
  intros H1 Hout. unfold walk_step, gaps.
  destruct (nth_error (a st) j) as [aj|] eqn:Eaj.
  - assert (j < length (a st))%nat by (apply nth_error_Some; congruence).
    destruct Hout as [Hout|Hout]; [lia|].
    destruct (nth_error (a st) (j - 1)) as [aj1|] eqn:Eaj1;
      [|apply nth_error_None in Eaj1; lia].
    rewrite (py_index_Some _ _ _ Eaj), (py_index_Some _ _ _ Eaj1).
    rewrite (py_index_None b j) by (apply nth_error_None; lia).
    reflexivity.
  - rewrite (py_index_None _ _ Eaj). reflexivity.
Qed.

(** ** The loop *)

Lemma walk_from_S (sfreq : Q) (b : list Q) (j k : nat) (st : walk_state) :
  walk_from sfreq b j (S k) st =
  (st' <- walk_step sfreq b j st ;; walk_from sfreq b (S j) k st').
Proof. reflexivity. Qed.

Lemma bind_Ok {A B} (m : Py A) (f : A -> Py B) out x :
  m = (out, Ok x) -> bind m f = (out ++ fst (f x), snd (f x)).
Proof. intros ->. unfold bind. now destruct (f x). Qed.

Lemma bind_Raise {A B} (m : Py A) (f : A -> Py B) out e :
  m = (out, Raise e) -> bind m f = (out, Raise e).
Proof. now intros ->. Qed.

(** The loop never reads outside its lists when the behavioural table is
    at least as long as the candidate list, and every line it prints
    reports one insertion, which lengthens both working lists by one. *)
Lemma walk_from_total (sfreq : Q) (b : list Q) (steps j : nat)
  (st : walk_state) :
  (1 <= j)%nat ->
  (j + steps <= length (a st))%nat -> (j + steps <= length b)%nat ->
  length (stim_onset_sample st) = length (a st) ->
  exists out st',
    walk_from sfreq b j steps st = (out, Ok st') /\
    forallb is_inserting out = true /\
    (length out <= steps)%nat /\
    length (a st') = (length (a st) + length out)%nat /\
    length (stim_onset_sample st') = length (a st').
Proof.
  revert j st. induction steps as [|k IH]; intros j st H1 Ha Hb Hlen.
  - exists [], st. cbn. repeat split; trivial; lia.
  - rewrite walk_from_S, walk_step_in_range by lia.
    destruct (over_threshold (a st) b j).
    + destruct (IH (S j) (insert_at sfreq b j st)) as
        (out & st' & Hw & Hins & Hle & Ha' & Hs'); cbn [a stim_onset_sample insert_at];
        rewrite ?length_py_insert; try lia.
      exists (Inserting j (synthesized (a st) b j) :: out), st'.
      rewrite (bind_Ok _ _ _ _ eq_refl), Hw. cbn [fst snd app].
      cbn [a insert_at] in Ha'. rewrite length_py_insert in Ha'.
      repeat split; cbn [forallb is_inserting length]; trivial; lia.
    + destruct (IH (S j) st) as (out & st' & Hw & Hins & Hle & Ha' & Hs');
        try lia.
      exists out, st'. rewrite (bind_Ok _ _ _ _ eq_refl), Hw.
      repeat split; trivial; lia.
Qed.

(** Without a gap over the threshold the loop changes nothing. *)
Lemma walk_from_no_gap (sfreq : Q) (b : list Q) (steps j : nat)
  (st : walk_state) :
  (1 <= j)%nat ->
  (j + steps <= length (a st))%nat -> (j + steps <= length b)%nat ->
  (forall i, (j <= i < j + steps)%nat -> over_threshold (a st) b i = false) ->
  walk_from sfreq b j steps st = ([], Ok st).
Proof.
  revert j. induction steps as [|k IH]; intros j H1 Ha Hb Hno.
  - reflexivity.
  - rewrite walk_from_S, walk_step_in_range by lia.
    rewrite Hno by lia.
    rewrite (bind_Ok _ _ _ _ eq_refl), IH; trivial; try lia.
    intros i Hi. apply Hno. lia.
Qed.

(** ** The repair stage *)

Lemma fix_not_missing (sfreq : Q) (T : list BehavRow) (stim : list Z) :
  missingtriggers T stim <= 0 ->
  fix_missing_triggers sfreq T stim = ([], Ok stim).
Proof.
  intros H. unfold fix_missing_triggers.
  destruct (Z.ltb_spec 0 (missingtriggers T stim)); [lia|reflexivity].
Qed.

Lemma fix_too_many (sfreq : Q) (T : list BehavRow) (stim : list Z) :
  100 <= missingtriggers T stim ->
  fix_missing_triggers sfreq T stim =
  ([Reconstructing (missingtriggers T stim);
    Triggers (length stim) (length T)],
   Raise TooManyMissingTriggers).
Proof.
  intros H. unfold fix_missing_triggers.
  destruct (Z.ltb_spec 0 (missingtriggers T stim)); [|lia].
  destruct (Z.ltb_spec (missingtriggers T stim) 100); [lia|reflexivity].
Qed.

Lemma fix_walk (sfreq : Q) (T : list BehavRow) (stim : list Z) out st :
  0 < missingtriggers T stim < 100 ->
  walk sfreq (map time_stimon T) (mkWalk (seconds sfreq stim) stim)
  = (out, Ok st) ->
  fix_missing_triggers sfreq T stim =
  (Reconstructing (missingtriggers T stim)
   :: Triggers (length stim) (length T) :: out,
   Ok (stim_onset_sample st)).
Proof.
  intros H Hw. unfold fix_missing_triggers.
  destruct (Z.ltb_spec 0 (missingtriggers T stim)); [|lia].
  destruct (Z.ltb_spec (missingtriggers T stim) 100); [|lia].
  rewrite Hw. cbn. rewrite app_nil_r. reflexivity.
Qed.

(** With fewer than 100 triggers missing the repair stage returns a
    candidate list: it raises nothing. *)
Lemma fix_walk_total (sfreq : Q) (T : list BehavRow) (stim : list Z) :
  0 < missingtriggers T stim < 100 ->
  exists out st,
    walk sfreq (map time_stimon T) (mkWalk (seconds sfreq stim) stim)
    = (out, Ok st) /\
    forallb is_inserting out = true /\
    (length out <= length stim - 1)%nat /\
    length (stim_onset_sample st) = (length stim + length out)%nat.
Proof.
  intros H. unfold missingtriggers in H.
  destruct (Nat.eq_dec (length stim) 0) as [E|E].
  { exists [], (mkWalk (seconds sfreq stim) stim).
    unfold walk, seconds. cbn [a]. rewrite length_map, E.
    repeat split; cbn; lia. }
  destruct (walk_from_total sfreq (map time_stimon T) (length stim - 1) 1
              (mkWalk (seconds sfreq stim) stim))
    as (out & st & Hw & Hins & Hle & Ha & Hs).
  - lia.
  - cbn [a]. unfold seconds. rewrite length_map. lia.
  - rewrite length_map. lia.
  - cbn [a stim_onset_sample]. unfold seconds. now rewrite length_map.
  - exists out, st. unfold walk. cbn [a] in *. unfold seconds in *.
    rewrite length_map in *.
    repeat split; trivial. lia.
Qed.

(** The only exception of the repair stage is the assertion on the
    number of missing triggers. *)
Lemma fix_raise_inv sfreq T stim out1 e :
  fix_missing_triggers sfreq T stim = (out1, Raise e) ->
  e = TooManyMissingTriggers /\ 100 <= missingtriggers T stim.
Proof.
  intros H.
  destruct (Z_lt_le_dec 0 (missingtriggers T stim)) as [Hp|Hp].
  - destruct (Z_lt_le_dec (missingtriggers T stim) 100) as [Hl|Hl].
    + destruct (fix_walk_total sfreq T stim) as (o & st & Hw & _); [lia|].
      rewrite (fix_walk sfreq T stim o st) in H by (lia || exact Hw).
      discriminate.
    + rewrite fix_too_many in H by exact Hl. split; [congruence|exact Hl].
  - rewrite fix_not_missing in H by exact Hp. discriminate.
Qed.

(** ** The assertions after the repair *)

Section AfterRepair.
Variables (sfreq : Q) (subj : Z) (T : list BehavRow) (stim : list Z).
Variables (out1 : list line) (stim' : list Z).
Hypothesis Hfix : fix_missing_triggers sfreq T stim = (out1, Ok stim').

Lemma reconcile_overflow :
  (length T < length stim')%nat ->
  reconcile sfreq subj T stim =
  (out1 ++ [FoundCounts (length stim') (length T)], Raise InsertionOverflow).
Proof.
  intros H. unfold reconcile. rewrite (bind_Ok _ _ _ _ Hfix).
  destruct (Nat.ltb_spec (length T) (length stim')); [|lia].
  destruct (Nat.leb_spec (length stim') (length T)); [lia|].
  reflexivity.
Qed.

Lemma reconcile_underflow :
  (length stim' < length T)%nat ->
  reconcile sfreq subj T stim = (out1, Raise InsertionUnderflow).
Proof.
  intros H. unfold reconcile. rewrite (bind_Ok _ _ _ _ Hfix).
  destruct (Nat.ltb_spec (length T) (length stim')); [lia|].
  destruct (Nat.leb_spec (length stim') (length T)); [|lia].
  destruct (Nat.leb_spec (length T) (length stim')); [lia|].
  cbn. rewrite app_nil_r. reflexivity.
Qed.

Lemma reconcile_checked :
  length stim' = length T ->
  reconcile sfreq subj T stim =
  let T2 := make_T2 sfreq subj stim' T in
  if all_below (onset_diffs T2) then (out1, Ok T2)
  else (out1 ++ [Exceeding (filter (fun d => negb (Qltb d threshold))
                              (onset_diffs T2))],
        Raise AlignmentToleranceExceeded).
Proof.
  intros H. unfold reconcile. rewrite (bind_Ok _ _ _ _ Hfix).
  destruct (Nat.ltb_spec (length T) (length stim')); [lia|].
  destruct (Nat.leb_spec (length stim') (length T)); [|lia].
  destruct (Nat.leb_spec (length T) (length stim')); [|lia].
  cbn zeta. destruct (all_below _); cbn; rewrite ?app_nil_r; reflexivity.
Qed.
End AfterRepair.

Lemma reconcile_fix_raise sfreq subj T stim out1 e :
  fix_missing_triggers sfreq T stim = (out1, Raise e) ->
  reconcile sfreq subj T stim = (out1, Raise e).
Proof. intros H. unfold reconcile. now rewrite (bind_Raise _ _ _ _ H). Qed.

Lemma length_make_T2_from sfreq subj i stim T :
  length stim = length T ->
  length (make_T2_from sfreq subj i stim T) = length T.
Proof.
  revert i T. induction stim as [|x stim IH]; intros i [|r T] H;
    try discriminate; cbn [make_T2_from length]; trivial.
  f_equal. apply IH. now injection H.
Qed.

(** What a run can end with once the repair stage has returned. *)
Lemma reconcile_outcome_after_fix sfreq subj T stim out1 stim' :
  fix_missing_triggers sfreq T stim = (out1, Ok stim') ->
  outcome (reconcile sfreq subj T stim) = Raise InsertionOverflow \/
  outcome (reconcile sfreq subj T stim) = Raise InsertionUnderflow \/
  outcome (reconcile sfreq subj T stim) = Raise AlignmentToleranceExceeded \/
  outcome (reconcile sfreq subj T stim) = Ok (make_T2 sfreq subj stim' T).
Proof.
  intros Hfix.
  destruct (lt_eq_lt_dec (length stim') (length T)) as [[Hlt|Heq]|Hgt].
  - rewrite (reconcile_underflow _ subj _ _ _ _ Hfix Hlt). auto.
  - rewrite (reconcile_checked _ subj _ _ _ _ Hfix Heq). cbn zeta.
    destruct (all_below _); auto.
  - rewrite (reconcile_overflow _ subj _ _ _ _ Hfix Hgt). auto.
Qed.

(** ** Count assertions *)

(** C3.  Once the repair stage has returned its candidate list, the run
    raises "Found too many events!" when that list is longer than the
    behavioural table, raises "Found not enough events!" when it is
    shorter, and returns a table only when the two lengths are equal.
    When more candidates than rows were detected, nothing is inserted
    and the run raises "Found too many events!". *)
Theorem C3_final_count_must_equal_expected
  (sfreq : Q) (subj : Z) (T : list BehavRow) (stim : list Z)
  (out1 : list line) (stim' : list Z) :
  fix_missing_triggers sfreq T stim = (out1, Ok stim') ->
  ((length T < length stim')%nat ->
   outcome (reconcile sfreq subj T stim) = Raise InsertionOverflow) /\
  ((length stim' < length T)%nat ->
   outcome (reconcile sfreq subj T stim) = Raise InsertionUnderflow) /\
  (forall T2, outcome (reconcile sfreq subj T stim) = Ok T2 ->
              length stim' = length T /\ length T2 = length T) /\
  (missingtriggers T stim < 0 ->
   out1 = [] /\ stim' = stim /\
   outcome (reconcile sfreq subj T stim) = Raise InsertionOverflow).
Proof.
  intros Hfix. repeat split.
  - intros H. now rewrite (reconcile_overflow _ subj _ _ _ _ Hfix H).
  - intros H. now rewrite (reconcile_underflow _ subj _ _ _ _ Hfix H).
  - destruct (lt_eq_lt_dec (length stim') (length T)) as [[Hlt|Heq]|Hgt];
      trivial; exfalso.
    + rewrite (reconcile_underflow _ subj _ _ _ _ Hfix Hlt) in H.
      discriminate.
    + rewrite (reconcile_overflow _ subj _ _ _ _ Hfix Hgt) in H.
      discriminate.
  - destruct (lt_eq_lt_dec (length stim') (length T)) as [[Hlt|Heq]|Hgt].
    + rewrite (reconcile_underflow _ subj _ _ _ _ Hfix Hlt) in H.
      discriminate.
    + rewrite (reconcile_checked _ subj _ _ _ _ Hfix Heq) in H.
      cbn zeta in H. destruct (all_below _); [|discriminate].
      injection H as <-. now apply length_make_T2_from.
    + rewrite (reconcile_overflow _ subj _ _ _ _ Hfix Hgt) in H.
      discriminate.
  - rewrite fix_not_missing in Hfix by lia. congruence.
  - rewrite fix_not_missing in Hfix by lia. congruence.
  - assert (Hfix' := Hfix).
    rewrite fix_not_missing in Hfix' by lia.
    injection Hfix' as _ <-.
    rewrite (reconcile_overflow _ subj _ _ _ _ Hfix); trivial.
    unfold missingtriggers in H. lia.
Qed.

Lemma C3_final_count_witness :
  outcome (reconcile 512 1 T4 [0; 5120; 10240]) = Raise InsertionOverflow /\
  outcome (reconcile 512 1 T4 [0; 512; 1024; 1536; 2048])
  = Raise InsertionOverflow.
Proof.
  split.
  - destruct (C3_final_count_must_equal_expected 512 1 T4 [0; 5120; 10240]
                [Reconstructing 1; Triggers 3 4;
                 Inserting 1 (512 # 512); Inserting 2 (1024 # 512)]
                [0; 512; 1024; 5120; 10240]) as [H _].
    + reflexivity.
    + apply H. cbn. lia.
  - destruct (C3_final_count_must_equal_expected 512 1 T4
                [0; 512; 1024; 1536; 2048] [] [0; 512; 1024; 1536; 2048])
      as (_ & _ & _ & H).
    + reflexivity.
    + apply H. reflexivity.
Defined.

(** C4.  A run raises "Too many missing triggers" exactly when 100 or
    more triggers are missing; it does so after announcing the
    reconstruction and before any insertion.  With no trigger missing,
    or with more candidates than rows, that assertion is never
    reached. *)
Theorem C4_too_many_missing_triggers
  (sfreq : Q) (subj : Z) (T : list BehavRow) (stim : list Z) :
  (100 <= missingtriggers T stim ->
   reconcile sfreq subj T stim =
   ([Reconstructing (missingtriggers T stim);
     Triggers (length stim) (length T)],
    Raise TooManyMissingTriggers) /\
   insertions (stdout (reconcile sfreq subj T stim)) = []) /\
  (missingtriggers T stim < 100 ->
   outcome (reconcile sfreq subj T stim) <> Raise TooManyMissingTriggers).
Proof.
  split.
  - intros H.
    rewrite (reconcile_fix_raise _ subj _ _ _ _ (fix_too_many sfreq T stim H)).
    split; reflexivity.
  - intros H.
    assert (Hfix : exists out1 stim',
               fix_missing_triggers sfreq T stim = (out1, Ok stim')).
    { destruct (Z_lt_le_dec 0 (missingtriggers T stim)) as [Hpos|Hneg].
      - destruct (fix_walk_total sfreq T stim) as (out & st & Hw & _);
          [lia|].
        eexists _, _. apply (fix_walk sfreq T stim out st); [lia|exact Hw].
      - eexists _, _. now apply fix_not_missing. }
    destruct Hfix as (out1 & stim' & Hfix).
    destruct (reconcile_outcome_after_fix sfreq subj T stim out1 stim' Hfix)
      as [E|[E|[E|E]]]; rewrite E; discriminate.
Qed.

Lemma C4_too_many_missing_witness :
  outcome (reconcile 512 1 T100 []) = Raise TooManyMissingTriggers /\
  outcome (reconcile 512 1 T4 [0; 512; 1024; 1536; 2048])
  <> Raise TooManyMissingTriggers.
Proof.
  split.
  - destruct (C4_too_many_missing_triggers 512 1 T100 []) as [H _].
    destruct H as [H _]; [vm_compute; discriminate|].
    rewrite H. reflexivity.
  - destruct (C4_too_many_missing_triggers 512 1 T4
                [0; 512; 1024; 1536; 2048]) as [_ H].
    apply H. vm_compute. reflexivity.
Defined.

(** ** Drops the walk does not see *)



(** ** The aligned table *)

Lemma reconcile_Ok_inv sfreq subj T stim out T2 :
  reconcile sfreq subj T stim = (out, Ok T2) ->
  exists stim',
    fix_missing_triggers sfreq T stim = (out, Ok stim') /\
    length stim' = length T /\
    T2 = make_T2 sfreq subj stim' T /\
    all_below (onset_diffs T2) = true.
Proof.
  intros H.
  destruct (fix_missing_triggers sfreq T stim) as [out1 [stim'|e]] eqn:Hfix.
  - destruct (lt_eq_lt_dec (length stim') (length T)) as [[Hlt|Heq]|Hgt].
    + rewrite (reconcile_underflow _ subj _ _ _ _ Hfix Hlt) in H.
      discriminate.
    + rewrite (reconcile_checked _ subj _ _ _ _ Hfix Heq) in H.
      cbn zeta in H.
      destruct (all_below _) eqn:Eall; [|discriminate].
      injection H as <- <-. exists stim'. auto.
    + rewrite (reconcile_overflow _ subj _ _ _ _ Hfix Hgt) in H.
      discriminate.
  - rewrite (reconcile_fix_raise _ subj _ _ _ _ Hfix) in H. discriminate.
Qed.

Lemma make_T2_from_zip sfreq subj i stim T :
  length stim = length T ->
  make_T2_from sfreq subj i stim T =
  map (fun '(n, (x, r)) => mkAlignedRow (inject_Z x / sfreq) (1 # 5) x n subj r)
      (combine (seq i (length T)) (combine stim T)).
Proof.
  revert i T. induction stim as [|x stim IH]; intros i [|r T] H;
    try discriminate; trivial.
  cbn [make_T2_from length seq combine map]. f_equal.
  apply IH. now injection H.
Qed.

Lemma make_T2_from_columns sfreq subj i stim T :
  length stim = length T ->
  map onsetsample (make_T2_from sfreq subj i stim T) = stim /\
  map behav (make_T2_from sfreq subj i stim T) = T /\
  map eventnumber (make_T2_from sfreq subj i stim T) = seq i (length T) /\
  map onset (make_T2_from sfreq subj i stim T) = seconds sfreq stim.
Proof.
  revert i T. induction stim as [|x stim IH]; intros i [|r T] H;
    try discriminate; [repeat split|].
  injection H as H. destruct (IH (S i) T H) as (H1 & H2 & H3 & H4).
  cbn [make_T2_from map onsetsample behav eventnumber onset length seq seconds].
  fold (seconds sfreq stim).
  rewrite H1, H2, H3, H4. repeat split.
Qed.

Lemma make_T2_from_roundtrip sfreq subj i stim T :
  Forall (fun r => onset r = (inject_Z (onsetsample r) / sfreq)%Q)
         (make_T2_from sfreq subj i stim T).
Proof.
  revert i T. induction stim as [|x stim IH]; intros i [|r T];
    cbn [make_T2_from]; constructor; [reflexivity|apply IH].
Qed.

(** C8.  In every row of the table a run returns, the onset in seconds
    is the row's onset sample divided by the sampling rate. *)
Theorem C8_onsetsample_over_sfreq_is_onset
  (sfreq : Q) (subj : Z) (T : list BehavRow) (stim : list Z)
  (out : list line) (T2 : list AlignedRow) :
  reconcile sfreq subj T stim = (out, Ok T2) ->
  Forall (fun r => onset r = (inject_Z (onsetsample r) / sfreq)%Q) T2.
Proof.
  intros H. apply reconcile_Ok_inv in H.
  destruct H as (stim' & _ & _ & -> & _).
  apply make_T2_from_roundtrip.
Qed.

Lemma C8_onsetsample_over_sfreq_witness :
  Forall (fun r => onset r = (inject_Z (onsetsample r) / 512)%Q)
         (make_T2 512 1 [0; 512; 1024; 1536] T4).
Proof.
  apply (C8_onsetsample_over_sfreq_is_onset 512 1 T4 [0; 512; 1536]
           [Reconstructing 1; Triggers 3 4; Inserting 2 (1024 # 512)]).
  reflexivity.
Defined.

(** ** No trigger missing *)

(** C6.  When as many candidates as rows were detected, nothing is
    inserted; a returned table is the zip of the unchanged candidate
    list with the rows of the behavioural table, with
    [onset = candidate / sfreq], [onsetsample = candidate] and
    [eventnumber] counted from 0.  When moreover every onset difference
    is below the tolerance, the run returns that table, and a second run
    on the candidates and rows of the table returns it again. *)
Theorem C6_no_missing_is_direct_zip
  (sfreq : Q) (subj : Z) (T : list BehavRow) (stim : list Z) :
  missingtriggers T stim = 0 ->
  insertions (stdout (reconcile sfreq subj T stim)) = [] /\
  (forall T2, outcome (reconcile sfreq subj T stim) = Ok T2 ->
     T2 = direct_zip sfreq subj stim T /\
     map onsetsample T2 = stim /\
     map behav T2 = T /\
     map eventnumber T2 = seq 0 (length T) /\
     map onset T2 = seconds sfreq stim) /\
  (all_below (onset_diffs (direct_zip sfreq subj stim T)) = true ->
   reconcile sfreq subj T stim = ([], Ok (direct_zip sfreq subj stim T)) /\
   reconcile sfreq subj (map behav (direct_zip sfreq subj stim T))
     (map onsetsample (direct_zip sfreq subj stim T))
   = ([], Ok (direct_zip sfreq subj stim T))).
Proof.
  intros Hm.
  assert (Hlen : length stim = length T)
    by (unfold missingtriggers in Hm; lia).
  assert (Hfix : fix_missing_triggers sfreq T stim = ([], Ok stim))
    by (apply fix_not_missing; lia).
  assert (Hzip : make_T2 sfreq subj stim T = direct_zip sfreq subj stim T)
    by (apply make_T2_from_zip, Hlen).
  assert (Hrun := reconcile_checked sfreq subj T stim [] stim Hfix Hlen).
  cbn zeta in Hrun. rewrite Hzip in Hrun.
  destruct (make_T2_from_columns sfreq subj 0 stim T Hlen)
    as (Hs & Hb & He & Ho).
  fold (make_T2 sfreq subj stim T) in Hs, Hb, He, Ho.
  rewrite Hzip in Hs, Hb, He, Ho.
  split; [|split].
  - rewrite Hrun. destruct (all_below _); reflexivity.
  - intros T2 HT2. rewrite Hrun in HT2.
    destruct (all_below _); [|discriminate].
    injection HT2 as <-. auto.
  - intros Hall. rewrite Hs, Hb, Hrun, Hall. auto.
Qed.

Lemma C6_no_missing_witness :
  reconcile 512 1 T4 [0; 512; 1024; 1536]
  = ([], Ok (direct_zip 512 1 [0; 512; 1024; 1536] T4)).
Proof.
  destruct (C6_no_missing_is_direct_zip 512 1 T4 [0; 512; 1024; 1536])
    as (_ & _ & H).
  - reflexivity.
  - apply H. reflexivity.
Defined.

(** ** The final comparison of onset times *)

Lemma all_below_true (l : list Q) :
  all_below l = true <-> Forall (fun d => (d < threshold)%Q) l.
Proof.
  unfold all_below. rewrite forallb_forall, Forall_forall.
  split; intros H d Hd; apply Qltb_true, H, Hd.
Qed.

Lemma all_below_false (l : list Q) :
  all_below l = false <-> Exists (fun d => (threshold <= d)%Q) l.
Proof.
  unfold all_below. induction l as [|d l IH]; cbn [forallb].
  - split; [discriminate|]. intros H. inversion H.
  - rewrite andb_false_iff, Exists_cons, IH, Qltb_false. reflexivity.
Qed.




(** ** The insertion rule *)



(** ** Drops the fixed loop bound leaves unrepaired *)

(** The loop runs [len(a) - 1] times for the length [a] had on entry, so
    it inserts fewer timestamps than triggers were detected: when at
    least as many triggers are missing as were detected, the run raises
    "Found not enough events!" whatever the gaps are. *)
Lemma walk_repairs_fewer_than_detected
  (sfreq : Q) (subj : Z) (T : list BehavRow) (stim : list Z) :
  0 < missingtriggers T stim < 100 ->
  Z.of_nat (length stim) <= missingtriggers T stim ->
  outcome (reconcile sfreq subj T stim) = Raise InsertionUnderflow.
Proof.
  intros Hm Hle.
  destruct (fix_walk_total sfreq T stim Hm) as (out & st & Hw & _ & Hk & Hs).
  assert (Hfix := fix_walk sfreq T stim out st Hm Hw).
  rewrite (reconcile_underflow _ subj _ _ _ _ Hfix); [reflexivity|].
  unfold missingtriggers in *. lia.
Qed.

(** C2, evaluated.  Two consecutive triggers (at 2 s and 3 s) are
    dropped.  Both gaps exceed the threshold at their positions, 2 and
    then 3, but [range(1, len(a))] was computed for the three detected
    triggers: the loop stops after position 2, one trigger is inserted,
    and the run raises "Found not enough events!". *)
Theorem C2_consecutive_drops_left_unrepaired :
  0 < missingtriggers T5 [0; 512; 2048] < 100 /\
  gaps_in_order (seconds 512 [0; 512; 2048]) (map time_stimon T5) 1 [2; 3]%nat
  = true /\
  reconcile 512 1 T5 [0; 512; 2048]
  = ([Reconstructing 2; Triggers 3 5; Inserting 2 (1024 # 512)],
     Raise InsertionUnderflow).
Proof. repeat split. Qed.

(** ** Monotonicity of the seconds array *)

Lemma sorted_nth_error_lt (l : list Q) (i j : nat) (x y : Q) :
  StronglySorted Qlt l -> (i < j)%nat ->
  nth_error l i = Some x -> nth_error l j = Some y -> (x < y)%Q.
Proof.
  intros Hs. revert i j.
  induction Hs as [|h l Hs IH Hall]; intros i j Hij Hx Hy.
  - destruct i; discriminate.
  - destruct j as [|j]; [lia|]. cbn in Hy. destruct i as [|i].
    + cbn in Hx. injection Hx as <-.
      rewrite Forall_forall in Hall. apply Hall.
      eapply nth_error_In. exact Hy.
    + cbn in Hx. apply (IH i j); trivial. lia.
Qed.

Lemma Forall_py_insert {A} (P : A -> Prop) (j : nat) (v : A) (l : list A) :
  Forall P l -> P v -> Forall P (py_insert j v l).
Proof.
  intros Hl Hv. rewrite <- (firstn_skipn j l) in Hl.
  apply Forall_app in Hl as [Hf Hk].
  unfold py_insert. apply Forall_app. split; [exact Hf|].
  constructor; assumption.
Qed.

Lemma py_insert_S {A} (j : nat) (v h : A) (t : list A) :
  py_insert (S j) v (h :: t) = h :: py_insert j v t.
Proof. reflexivity. Qed.

Lemma sorted_py_insert (l : list Q) (j : nat) (x v y : Q) :
  StronglySorted Qlt l ->
  nth_error l j = Some x -> nth_error l (S j) = Some y ->
  (x < v)%Q -> (v < y)%Q ->
  StronglySorted Qlt (py_insert (S j) v l).
Proof.
  intros Hs. revert j.
  induction Hs as [|h t Hs IH Hall]; intros j Hx Hy Hxv Hvy.
  - destruct j; discriminate.
  - rewrite py_insert_S. destruct j as [|j].
    + cbn in Hx. injection Hx as <-.
      destruct t as [|y' t']; [discriminate|].
      cbn in Hy. injection Hy as ->.
      unfold py_insert. cbn [firstn skipn app].
      constructor; [constructor; [exact Hs|]|].
      * inversion Hs as [|? ? _ Hy']; subst.
        constructor; [exact Hvy|].
        eapply Forall_impl; [|exact Hy'].
        intros z Hz. cbv beta in Hz. lra.
      * constructor; [exact Hxv|exact Hall].
    + cbn in Hx, Hy. constructor.
      * apply (IH j); assumption.
      * apply Forall_py_insert; [exact Hall|].
        rewrite Forall_forall in Hall.
        assert (h < x)%Q by (apply Hall; eapply nth_error_In; exact Hx).
        lra.
Qed.

Lemma synthesized_between (a0 b : list Q) (j : nat) :
  (1 <= j)%nat -> (j < length a0)%nat -> (j < length b)%nat ->
  StronglySorted Qlt b ->
  over_threshold a0 b j = true ->
  (nth (j - 1) a0 0 < synthesized a0 b j)%Q /\
  (synthesized a0 b j < nth j a0 0)%Q.
Proof.
  intros H1 Ha Hb Hsb Hgap.
  apply Qltb_true in Hgap. unfold synthesized.
  assert (Hlt : (nth (j - 1) b 0 < nth j b 0)%Q).
  { apply (sorted_nth_error_lt b (j - 1) j); trivial; try lia;
      apply nth_error_nth'; lia. }
  unfold threshold in Hgap. split; lra.
Qed.

Lemma insert_at_sorted (sfreq : Q) (b : list Q) (j : nat) (st : walk_state) :
  (1 <= j)%nat -> (j < length (a st))%nat -> (j < length b)%nat ->
  StronglySorted Qlt (a st) -> StronglySorted Qlt b ->
  over_threshold (a st) b j = true ->
  StronglySorted Qlt (a (insert_at sfreq b j st)).
Proof.
  intros H1 Ha Hb Hsa Hsb Hgap.
  destruct (synthesized_between (a st) b j H1 Ha Hb Hsb Hgap) as [Hlo Hhi].
  cbn [a insert_at]. destruct j as [|j]; [lia|].
  replace (S j - 1)%nat with j in Hlo by lia.
  apply (sorted_py_insert (a st) j (nth j (a st) 0%Q) _
           (nth (S j) (a st) 0%Q));
    trivial; apply nth_error_nth'; lia.
Qed.

Lemma walk_from_sorted (sfreq : Q) (b : list Q) (steps j : nat)
  (st : walk_state) out st' :
  (1 <= j)%nat ->
  StronglySorted Qlt (a st) -> StronglySorted Qlt b ->
  walk_from sfreq b j steps st = (out, Ok st') ->
  StronglySorted Qlt (a st').
Proof.
  revert j st out. induction steps as [|k IH]; intros j st out H1 Hsa Hsb Hw.
  - cbn in Hw. injection Hw as _ <-. exact Hsa.
  - rewrite walk_from_S in Hw.
    destruct (le_lt_dec (length (a st)) j) as [Ha|Ha];
      [rewrite (bind_Raise _ _ _ _ (walk_step_out_of_range sfreq b j st H1
                                      (or_introl Ha))) in Hw; discriminate|].
    destruct (le_lt_dec (length b) j) as [Hb|Hb];
      [rewrite (bind_Raise _ _ _ _ (walk_step_out_of_range sfreq b j st H1
                                      (or_intror Hb))) in Hw; discriminate|].
    rewrite walk_step_in_range in Hw by lia.
    destruct (over_threshold (a st) b j) eqn:Hgap;
      rewrite (bind_Ok _ _ _ _ eq_refl) in Hw.
    + destruct (walk_from sfreq b (S j) k (insert_at sfreq b j st))
        as [o r] eqn:E.
      cbn [fst snd] in Hw. injection Hw as _ ->.
      apply (IH (S j) (insert_at sfreq b j st) o); trivial; [lia|].
      now apply insert_at_sorted.
    + destruct (walk_from sfreq b (S j) k st) as [o r] eqn:E.
      cbn [fst snd] in Hw. injection Hw as _ ->.
      apply (IH (S j) st o); trivial. lia.
Qed.

(** C9.  When the seconds array and the logged onset times are strictly
    increasing, every synthesized time lies strictly between the two
    entries it is inserted between, so the array is strictly increasing
    after each insertion and after any number of iterations of the
    walk. *)
Theorem C9_walk_keeps_seconds_increasing
  (sfreq : Q) (b : list Q) (st : walk_state) :
  StronglySorted Qlt (a st) -> StronglySorted Qlt b ->
  (forall j, (1 <= j < length (a st))%nat -> (j < length b)%nat ->
     over_threshold (a st) b j = true ->
     (nth (j - 1) (a st) 0 < synthesized (a st) b j)%Q /\
     (synthesized (a st) b j < nth j (a st) 0)%Q /\
     StronglySorted Qlt (a (insert_at sfreq b j st))) /\
  (forall steps out st',
     walk_from sfreq b 1 steps st = (out, Ok st') ->
     StronglySorted Qlt (a st')).
Proof.
  intros Hsa Hsb. split.
  - intros j Hj Hb Hgap.
    destruct (synthesized_between (a st) b j) as [Hlo Hhi]; trivial;
      try lia.
    repeat split; trivial. apply insert_at_sorted; trivial; lia.
  - intros steps out st' Hw.
    apply (walk_from_sorted sfreq b steps 1 st out st'); trivial.
Qed.

Lemma C9_walk_keeps_increasing_witness :
  StronglySorted Qlt [0 # 512; 512 # 512; 1024 # 512; 1536 # 512]%Q.
Proof.
  destruct (C9_walk_keeps_seconds_increasing 512 [0; 1; 2; 3]%Q
              (mkWalk (seconds 512 [0; 512; 1536]) [0; 512; 1536]))
    as [_ H].
  - repeat constructor.
  - repeat constructor.
  - apply (H 2%nat [Inserting 2 (1024 # 512)]
             (mkWalk [0 # 512; 512 # 512; 1024 # 512; 1536 # 512]%Q
                     [0; 512; 1024; 1536])).
    reflexivity.
Defined.

(** * Further properties of the alignment code *)

(** ** Rounding *)

Lemma py_round_compare (q : Q) :
  (2 * (Qnum q mod Z.pos (Qden q)) ?= Z.pos (Qden q))
  = (q - inject_Z (Qfloor q) ?= 1 # 2)%Q.
Proof.
  destruct q as [n d]. unfold Qcompare, Qfloor, Qminus, Qplus, Qopp, inject_Z.
  cbn [Qnum Qden]. rewrite Pos.mul_1_r.
  f_equal.
  rewrite (Z.mod_eq n (Z.pos d)) by lia. lia.
Qed.

Lemma py_round_alt (q : Q) :
  py_round q =
  match (q - inject_Z (Qfloor q) ?= 1 # 2)%Q with
  | Lt => Qfloor q
  | Gt => Qfloor q + 1
  | Eq => if Z.even (Qfloor q) then Qfloor q else Qfloor q + 1
  end.
Proof.
  unfold py_round. rewrite py_round_compare.
  destruct q as [n d]. reflexivity.
Qed.

Lemma py_round_Qeq (q q' : Q) : (q == q')%Q -> py_round q = py_round q'.
Proof.
  intros H. rewrite !py_round_alt.
  rewrite (Qfloor_comp _ _ H).
  assert (E : (q - inject_Z (Qfloor q') ?= 1 # 2)%Q
              = (q' - inject_Z (Qfloor q') ?= 1 # 2)%Q).
  { apply Qcompare_comp; [|reflexivity]. now rewrite H. }
  now rewrite E.
Qed.

Lemma py_round_inject_Z (x : Z) : py_round (inject_Z x) = x.
Proof.
  unfold py_round, inject_Z. cbn [Qnum Qden].
  rewrite Z.div_1_r, Z.mod_1_r. reflexivity.
Qed.

(** The rounded value is at most one half away. *)
Lemma py_round_bounds (q : Q) :
  (inject_Z (py_round q) - (1 # 2) <= q)%Q /\
  (q <= inject_Z (py_round q) + (1 # 2))%Q.
Proof.
  rewrite py_round_alt.
  assert (Hlo := Qfloor_le q). assert (Hhi := Qlt_floor q).
  rewrite inject_Z_plus in Hhi. change (inject_Z 1) with 1%Q in Hhi.
  destruct (Qcompare_spec (q - inject_Z (Qfloor q)) (1 # 2)) as [E|E|E].
  - destruct (Z.even (Qfloor q)); rewrite ?inject_Z_plus;
      change (inject_Z 1) with 1%Q; split; lra.
  - split; lra.
  - rewrite inject_Z_plus. change (inject_Z 1) with 1%Q. split; lra.
Qed.

Lemma py_round_mono (q q' : Q) :
  (q <= q')%Q -> py_round q <= py_round q'.
Proof.
  intros Hle.
  destruct (Z_le_gt_dec (py_round q) (py_round q')) as [H|H]; trivial.
  exfalso.
  destruct (py_round_bounds q) as [Hlo _].
  destruct (py_round_bounds q') as [_ Hhi].
  assert (Hz : (inject_Z (py_round q') + 1 <= inject_Z (py_round q))%Q).
  { change 1%Q with (inject_Z 1). rewrite <- inject_Z_plus, <- Zle_Qle. lia. }
  assert (E : (q == q')%Q) by lra.
  apply py_round_Qeq in E. lia.
Qed.

(** ** Invariants of the walk *)

(** A property of the working lists that every insertion of the loop
    body keeps holds after the loop. *)
Lemma walk_from_preserves (P : walk_state -> Prop) (sfreq : Q) (b : list Q) :
  (forall j st,
     (1 <= j)%nat -> (j < length (a st))%nat -> (j < length b)%nat ->
     over_threshold (a st) b j = true ->
     P st -> P (insert_at sfreq b j st)) ->
  forall steps j st out st',
    (1 <= j)%nat -> P st ->
    walk_from sfreq b j steps st = (out, Ok st') -> P st'.
Proof.
  intros Hins. induction steps as [|k IH]; intros j st out st' H1 HP Hw.
  - cbn in Hw. injection Hw as _ <-. exact HP.
  - rewrite walk_from_S in Hw.
    destruct (le_lt_dec (length (a st)) j) as [Ha|Ha];
      [rewrite (bind_Raise _ _ _ _ (walk_step_out_of_range sfreq b j st H1
                                      (or_introl Ha))) in Hw; discriminate|].
    destruct (le_lt_dec (length b) j) as [Hb|Hb];
      [rewrite (bind_Raise _ _ _ _ (walk_step_out_of_range sfreq b j st H1
                                      (or_intror Hb))) in Hw; discriminate|].
    rewrite walk_step_in_range in Hw by lia.
    destruct (over_threshold (a st) b j) eqn:Hgap;
      rewrite (bind_Ok _ _ _ _ eq_refl) in Hw.
    + destruct (walk_from sfreq b (S j) k (insert_at sfreq b j st))
        as [o r] eqn:E.
      cbn [fst snd] in Hw. injection Hw as _ ->.
      apply (IH (S j) (insert_at sfreq b j st) o); trivial; [lia|].
      now apply Hins.
    + destruct (walk_from sfreq b (S j) k st) as [o r] eqn:E.
      cbn [fst snd] in Hw. injection Hw as _ ->.
      apply (IH (S j) st o); trivial. lia.
Qed.

Lemma map_py_insert {A B} (f : A -> B) (j : nat) (v : A) (l : list A) :
  map f (py_insert j v l) = py_insert j (f v) (map f l).
Proof.
  unfold py_insert. rewrite map_app, firstn_map. cbn [map].
  now rewrite skipn_map.
Qed.

Lemma seconds_round_trip (sfreq : Q) (stim : list Z) :
  ~ (sfreq == 0)%Q ->
  map (fun t => py_round (sfreq * t)%Q) (seconds sfreq stim) = stim.
Proof.
  intros Hs. unfold seconds. rewrite map_map.
  induction stim as [|x stim IH]; cbn [map]; [reflexivity|].
  rewrite IH. f_equal.
  rewrite (py_round_Qeq _ (inject_Z x)) by now apply Qmult_div_r.
  apply py_round_inject_Z.
Qed.

Lemma insert_at_lock_step (sfreq : Q) (b : list Q) (j : nat)
  (st : walk_state) :
  in_lock_step sfreq st -> in_lock_step sfreq (insert_at sfreq b j st).
Proof.
  unfold in_lock_step. intros H. cbn [a stim_onset_sample insert_at].
  now rewrite map_py_insert, H.
Qed.

Lemma walk_lock_step (sfreq : Q) (b : list Q) (stim : list Z) out st :
  ~ (sfreq == 0)%Q ->
  walk sfreq b (mkWalk (seconds sfreq stim) stim) = (out, Ok st) ->
  in_lock_step sfreq st.
Proof.
  intros Hs Hw. unfold walk in Hw.
  apply (walk_from_preserves (in_lock_step sfreq) sfreq b) in Hw; trivial.
  - intros j st0 _ _ _ _. apply insert_at_lock_step.
  - unfold in_lock_step. cbn [a stim_onset_sample].
    now rewrite seconds_round_trip.
Qed.

Lemma walk_sorted (sfreq : Q) (b : list Q) (stim : list Z) out st :
  StronglySorted Qlt (seconds sfreq stim) -> StronglySorted Qlt b ->
  walk sfreq b (mkWalk (seconds sfreq stim) stim) = (out, Ok st) ->
  StronglySorted Qlt (a st).
Proof.
  intros Ha Hb Hw.
  apply (walk_from_sorted sfreq b _ 1 _ out st) in Hw; trivial.
Qed.

Lemma subseq_refl {A} (l : list A) : subseq l l.
Proof. induction l; constructor; assumption. Qed.

Lemma subseq_trans {A} (l1 l2 l3 : list A) :
  subseq l1 l2 -> subseq l2 l3 -> subseq l1 l3.
Proof.
  intros H12 H23. revert l1 H12.
  induction H23 as [|x l2 l3 H23 IH|x l2 l3 H23 IH]; intros l1 H12.
  - exact H12.
  - constructor. now apply IH.
  - inversion H12; subst; constructor; now apply IH.
Qed.

Lemma subseq_py_insert {A} (j : nat) (v : A) (l : list A) :
  subseq l (py_insert j v l).
Proof.
  revert j. induction l as [|x l IH]; intros j.
  - destruct j; repeat constructor.
  - destruct j as [|j].
    + apply subseq_skip, subseq_refl.
    + rewrite py_insert_S. apply subseq_keep, IH.
Qed.

Lemma walk_subseq (sfreq : Q) (b : list Q) (stim : list Z) out st :
  walk sfreq b (mkWalk (seconds sfreq stim) stim) = (out, Ok st) ->
  subseq stim (stim_onset_sample st).
Proof.
  intros Hw. unfold walk in Hw.
  apply (walk_from_preserves
           (fun st => subseq stim (stim_onset_sample st)) sfreq b) in Hw;
    trivial.
  - intros j st0 _ _ _ _ H. cbn [stim_onset_sample insert_at].
    eapply subseq_trans; [exact H|apply subseq_py_insert].
  - apply subseq_refl.
Qed.

(** What the repair stage returns, by the number of missing triggers. *)
Lemma fix_Ok_cases sfreq T stim out stim' :
  fix_missing_triggers sfreq T stim = (out, Ok stim') ->
  (missingtriggers T stim <= 0 /\ out = [] /\ stim' = stim) \/
  (0 < missingtriggers T stim < 100 /\
   exists o st,
     walk sfreq (map time_stimon T) (mkWalk (seconds sfreq stim) stim)
     = (o, Ok st) /\
     out = Reconstructing (missingtriggers T stim)
           :: Triggers (length stim) (length T) :: o /\
     stim' = stim_onset_sample st /\
     forallb is_inserting o = true /\
     (length o <= length stim - 1)%nat /\
     length stim' = (length stim + length o)%nat).
Proof.
  intros H.
  destruct (Z_lt_le_dec 0 (missingtriggers T stim)) as [Hp|Hp].
  - destruct (Z_lt_le_dec (missingtriggers T stim) 100) as [Hl|Hl].
    + right. split; [lia|].
      destruct (fix_walk_total sfreq T stim) as (o & st & Hw & Hi & Hk & Hn);
        [lia|].
      rewrite (fix_walk sfreq T stim o st) in H by (lia || exact Hw).
      injection H as <- <-. exists o, st. auto 10.
    + rewrite fix_too_many in H by exact Hl. discriminate.
  - rewrite fix_not_missing in H by exact Hp.
    injection H as <- <-. left. auto.
Qed.

Lemma filter_all {A} (f : A -> bool) (l : list A) :
  forallb f l = true -> filter f l = l.
Proof.
  induction l as [|x l IH]; cbn [forallb filter]; trivial.
  intros H. apply andb_true_iff in H as [Hx Hl].
  rewrite Hx. f_equal. now apply IH.
Qed.

Lemma StronglySorted_map {A B} (R : A -> A -> Prop) (R' : B -> B -> Prop)
  (f : A -> B) (l : list A) :
  (forall x y, R x y -> R' (f x) (f y)) ->
  StronglySorted R l -> StronglySorted R' (map f l).
Proof.
  intros Hf. induction 1 as [|x l _ IH Hall]; cbn [map]; constructor; trivial.
  apply Forall_map. eapply Forall_impl; [|exact Hall]. intros y. apply Hf.
Qed.

Lemma Qdiv_lt_pos (x y s : Q) : (0 < s)%Q -> (x < y)%Q -> (x / s < y / s)%Q.
Proof.
  intros Hs Hxy. unfold Qdiv. apply Qmult_lt_r; trivial.
  now apply Qinv_lt_0_compat.
Qed.

Lemma Qdiv_le_pos (x y s : Q) : (0 < s)%Q -> (x <= y)%Q -> (x / s <= y / s)%Q.
Proof.
  intros Hs Hxy. unfold Qdiv. apply Qmult_le_r; trivial.
  now apply Qinv_lt_0_compat.
Qed.

Lemma seconds_sorted (sfreq : Q) (stim : list Z) :
  (0 < sfreq)%Q -> StronglySorted Z.lt stim ->
  StronglySorted Qlt (seconds sfreq stim).
Proof.
  intros Hs. apply StronglySorted_map. intros x y Hxy.
  apply Qdiv_lt_pos; trivial. now rewrite <- Zlt_Qlt.
Qed.

(** ** Exceptions and bookkeeping of the repair *)

(** X1.  No run ends with an [IndexError]: the loop reads [a[j]],
    [a[j-1]], [b[j]] and [b[j-1]] only at indices inside the lists,
    whatever the candidates and the behavioural table are. *)
Theorem run_never_raises_IndexError
  (sfreq : Q) (subj : Z) (T : list BehavRow) (stim : list Z) :
  outcome (fix_missing_triggers sfreq T stim) <> Raise IndexError /\
  outcome (reconcile sfreq subj T stim) <> Raise IndexError.
Proof.
  destruct (fix_missing_triggers sfreq T stim) as [out1 [stim'|e]] eqn:Hfix.
  - split; [discriminate|].
    destruct (reconcile_outcome_after_fix sfreq subj T stim out1 stim' Hfix)
      as [E|[E|[E|E]]]; rewrite E; discriminate.
  - destruct (fix_raise_inv _ _ _ _ _ Hfix) as [-> _].
    rewrite (reconcile_fix_raise _ subj _ _ _ _ Hfix).
    split; discriminate.
Qed.



(** X3.  When between 1 and 99 triggers are missing and at least as many
    are missing as were detected, the run raises "Found not enough
    events!", however large the gaps between the detected triggers
    are. *)
Theorem too_few_detected_always_underflows
  (sfreq : Q) (subj : Z) (T : list BehavRow) (stim : list Z) :
  0 < missingtriggers T stim < 100 ->
  Z.of_nat (length stim) <= missingtriggers T stim ->
  outcome (reconcile sfreq subj T stim) = Raise InsertionUnderflow.
Proof.
  intros Hm Hle.
  destruct (fix_walk_total sfreq T stim Hm) as (o & st & Hw & _ & Hk & Hn).
  assert (Hfix := fix_walk sfreq T stim o st Hm Hw).
  rewrite (reconcile_underflow _ subj _ _ _ _ Hfix); [reflexivity|].
  unfold missingtriggers in *. lia.
Qed.

Lemma too_few_detected_witness :
  outcome (reconcile 512 1 T4 [0; 5120]) = Raise InsertionUnderflow.
Proof.
  apply (too_few_detected_always_underflows 512 1 T4 [0; 5120]).
  - vm_compute. split; reflexivity.
  - vm_compute. discriminate.
Defined.

(** ** Shape of the returned table *)

Lemma fix_subseq sfreq T stim out stim' :
  fix_missing_triggers sfreq T stim = (out, Ok stim') -> subseq stim stim'.
Proof.
  intros Hfix.
  destruct (fix_Ok_cases _ _ _ _ _ Hfix)
    as [(_ & _ & ->)|(_ & o & st & Hw & _ & -> & _)].
  - apply subseq_refl.
  - exact (walk_subseq _ _ _ _ _ Hw).
Qed.

Lemma make_T2_from_constants sfreq subj i stim T :
  Forall (fun r => duration r = 1 # 5 /\ subjectnr r = subj)
         (make_T2_from sfreq subj i stim T).
Proof.
  revert i T. induction stim as [|x stim IH]; intros i [|r T];
    cbn [make_T2_from]; constructor; [split; reflexivity|apply IH].
Qed.

(** X4.  Every table a run returns has one row per row of the
    behavioural table, carries those rows unchanged and in order,
    numbers the events 0, 1, ..., N-1, and has duration 0.2 and the
    subject number in every row.  Its onset samples contain the detected
    triggers, unchanged and in their order: the repair only adds
    entries. *)
Theorem returned_table_keeps_rows_and_triggers
  (sfreq : Q) (subj : Z) (T : list BehavRow) (stim : list Z)
  (out : list line) (T2 : list AlignedRow) :
  reconcile sfreq subj T stim = (out, Ok T2) ->
  length T2 = length T /\
  map behav T2 = T /\
  map eventnumber T2 = seq 0 (length T) /\
  subseq stim (map onsetsample T2) /\
  Forall (fun r => duration r = 1 # 5 /\ subjectnr r = subj) T2.
Proof.
  intros H. apply reconcile_Ok_inv in H.
  destruct H as (stim' & Hfix & Hlen & -> & _).
  destruct (make_T2_from_columns sfreq subj 0 stim' T Hlen)
    as (Hs & Hb & He & _).
  unfold make_T2. rewrite Hs, Hb, He.
  repeat split; trivial.
  - now apply length_make_T2_from.
  - exact (fix_subseq _ _ _ _ _ Hfix).
  - apply make_T2_from_constants.
Qed.

Lemma returned_table_witness :
  subseq [0; 512; 1536]
         (map onsetsample (make_T2 512 1 [0; 512; 1024; 1536] T4)).
Proof.
  apply (returned_table_keeps_rows_and_triggers 512 1 T4 [0; 512; 1536]
           [Reconstructing 1; Triggers 3 4; Inserting 2 (1024 # 512)]).
  reflexivity.
Defined.

(** ** Seconds and samples stay together *)

(** X5.  For a nonzero sampling rate the two working lists of the walk
    stay in step: after the loop each onset sample is the rounding of
    [sfreq] times the entry of the seconds array at the same index, so
    it lies within half a sample of it. *)
Theorem walk_keeps_samples_rounded
  (sfreq : Q) (b : list Q) (stim : list Z) (out : list line)
  (st : walk_state) :
  ~ (sfreq == 0)%Q ->
  walk sfreq b (mkWalk (seconds sfreq stim) stim) = (out, Ok st) ->
  stim_onset_sample st = map (fun t => py_round (sfreq * t)%Q) (a st) /\
  Forall2 (fun s t => (inject_Z s - (1 # 2) <= sfreq * t)%Q /\
                      (sfreq * t <= inject_Z s + (1 # 2))%Q)
          (stim_onset_sample st) (a st).
Proof.
  intros Hs Hw. assert (H := walk_lock_step _ _ _ _ _ Hs Hw).
  split; [exact H|]. rewrite H.
  induction (a st) as [|t l IH]; cbn [map]; constructor; trivial.
  apply py_round_bounds.
Qed.

Lemma walk_keeps_samples_rounded_witness :
  [0; 512; 1024; 1536]
  = map (fun t => py_round (512 * t)%Q)
        [0 # 512; 512 # 512; 1024 # 512; 1536 # 512]%Q.
Proof.
  apply (walk_keeps_samples_rounded 512 [0; 1; 2; 3]%Q [0; 512; 1536]
           [Inserting 2 (1024 # 512)]
           (mkWalk [0 # 512; 512 # 512; 1024 # 512; 1536 # 512]%Q
                   [0; 512; 1024; 1536])).
  - vm_compute. discriminate.
  - reflexivity.
Defined.

Lemma walk_samples_nondecreasing (sfreq : Q) (b : list Q) (stim : list Z)
  out st :
  (0 < sfreq)%Q ->
  StronglySorted Z.lt stim -> StronglySorted Qlt b ->
  walk sfreq b (mkWalk (seconds sfreq stim) stim) = (out, Ok st) ->
  StronglySorted Z.le (stim_onset_sample st).
Proof.
  intros Hs Hstim Hb Hw.
  assert (Hne : ~ (sfreq == 0)%Q) by (intros E; rewrite E in Hs; lra).
  rewrite (walk_lock_step _ _ _ _ _ Hne Hw).
  apply (StronglySorted_map Qlt Z.le).
  - intros x y Hxy. apply py_round_mono.
    apply Qmult_le_l; trivial. now apply Qlt_le_weak.
  - apply (walk_sorted _ _ _ _ _ (seconds_sorted _ _ Hs Hstim) Hb Hw).
Qed.

Lemma sorted_lt_le (l : list Z) :
  StronglySorted Z.lt l -> StronglySorted Z.le l.
Proof.
  intros H. rewrite <- (map_id l).
  apply (StronglySorted_map Z.lt Z.le (fun x => x)); trivial.
  intros x y. lia.
Qed.

(** X6.  For a positive sampling rate, strictly increasing detected
    triggers and strictly increasing logged onset times, the candidate
    list the repair stage returns is non-decreasing: an inserted sample
    never falls before the trigger on its left nor after the one on its
    right. *)
Theorem repaired_samples_nondecreasing
  (sfreq : Q) (T : list BehavRow) (stim : list Z)
  (out : list line) (stim' : list Z) :
  (0 < sfreq)%Q ->
  StronglySorted Z.lt stim ->
  StronglySorted Qlt (map time_stimon T) ->
  fix_missing_triggers sfreq T stim = (out, Ok stim') ->
  StronglySorted Z.le stim'.
Proof.
  intros Hs Hstim Hb Hfix.
  destruct (fix_Ok_cases _ _ _ _ _ Hfix)
    as [(_ & _ & ->)|(_ & o & st & Hw & _ & -> & _)].
  - now apply sorted_lt_le.
  - exact (walk_samples_nondecreasing _ _ _ _ _ Hs Hstim Hb Hw).
Qed.

Lemma repaired_samples_nondecreasing_witness :
  StronglySorted Z.le [0; 512; 1024; 1536].
Proof.
  apply (repaired_samples_nondecreasing 512 T4 [0; 512; 1536]
           [Reconstructing 1; Triggers 3 4; Inserting 2 (1024 # 512)]).
  - reflexivity.
  - repeat constructor.
  - repeat constructor.
  - reflexivity.
Defined.

(** ** The detector and the whole run *)

Lemma length_np_nonzero_from (m : list bool) (k : Z) :
  (length (np_nonzero_from k m) <= length m)%nat.
Proof.
  revert k. induction m as [|c m IH]; intros k; cbn [np_nonzero_from length].
  - lia.
  - specialize (IH (k + 1)). destruct c; cbn [length]; lia.
Qed.

(** X7.  Every detected trigger is a valid index of the Status channel
    with a sample after it, and at most [len(stim_data) - 1] triggers
    are detected; a channel of fewer than two samples yields none. *)
Theorem detected_triggers_index_the_channel (stim_data : list Q) :
  Forall (fun i => 0 <= i < Z.of_nat (length stim_data) - 1)
         (detect_stim_onset_sample stim_data) /\
  (length (detect_stim_onset_sample stim_data) <= length stim_data - 1)%nat.
Proof.
  split.
  - apply Forall_forall. intros i Hi. apply In_detect in Hi.
    destruct Hi as [H0 (x & y & _ & Hy & _)].
    assert (S (Z.to_nat i) < length stim_data)%nat
      by (apply nth_error_Some; congruence).
    lia.
  - unfold detect_stim_onset_sample, np_nonzero.
    etransitivity; [apply length_np_nonzero_from|].
    now rewrite length_map, length_np_diff.
Qed.

(** X8.  In a run on the Status channel itself, with a positive sampling
    rate and strictly increasing logged onset times, the returned table
    has non-decreasing onset samples and onsets, and its onset samples
    contain every detected trigger. *)
Theorem run_preprocess_onsets_are_ordered
  (sfreq : Q) (subj : Z) (T : list BehavRow) (stim_data : list Q)
  (out : list line) (T2 : list AlignedRow) :
  (0 < sfreq)%Q ->
  StronglySorted Qlt (map time_stimon T) ->
  run_preprocess sfreq subj T stim_data = (out, Ok T2) ->
  StronglySorted Z.le (map onsetsample T2) /\
  StronglySorted Qle (map onset T2) /\
  subseq (detect_stim_onset_sample stim_data) (map onsetsample T2).
Proof.
  intros Hs Hb H. unfold run_preprocess in H.
  apply reconcile_Ok_inv in H.
  destruct H as (stim' & Hfix & Hlen & -> & _).
  destruct (make_T2_from_columns sfreq subj 0 stim' T Hlen)
    as (Hsam & _ & _ & Hon).
  fold (make_T2 sfreq subj stim' T) in Hsam, Hon.
  assert (Hdet : StronglySorted Z.lt (detect_stim_onset_sample stim_data))
    by apply np_nonzero_from_sorted.
  assert (Hsorted : StronglySorted Z.le stim').
  { destruct (fix_Ok_cases _ _ _ _ _ Hfix)
      as [(_ & _ & ->)|(_ & o & st & Hw & _ & -> & _)].
    - now apply sorted_lt_le.
    - exact (walk_samples_nondecreasing _ _ _ _ _ Hs Hdet Hb Hw). }
  rewrite Hsam, Hon. repeat split; trivial.
  - unfold seconds. apply (StronglySorted_map Z.le Qle); trivial.
    intros x y Hxy. apply Qdiv_le_pos; trivial. now rewrite <- Zle_Qle.
  - exact (fix_subseq _ _ _ _ _ Hfix).
Qed.

Lemma run_preprocess_onsets_witness :
  StronglySorted Z.le [0; 3].
Proof.
  apply (run_preprocess_onsets_are_ordered 1 1 (rows_at [0; 3]%Q)
           status_two_edges [] (make_T2 1 1 [0; 3] (rows_at [0; 3]%Q))).
  - reflexivity.
  - repeat constructor.
  - reflexivity.
Defined.

(** ** The notice before the count assertions *)

Lemma fix_stdout_lines sfreq T stim out r l :
  fix_missing_triggers sfreq T stim = (out, r) -> In l out ->
  match l with FoundCounts _ _ | Exceeding _ => False | _ => True end.
Proof.
  intros Hfix Hin. destruct r as [stim'|e].
  - destruct (fix_Ok_cases _ _ _ _ _ Hfix)
      as [(_ & -> & _)|(_ & o & st & _ & -> & _ & Hi & _)]; [destruct Hin|].
    destruct Hin as [<-|[<-|Hin]]; trivial.
    rewrite forallb_forall in Hi. specialize (Hi _ Hin).
    destruct l; trivial; discriminate.
  - destruct (fix_raise_inv _ _ _ _ _ Hfix) as [-> Hm].
    rewrite fix_too_many in Hfix by exact Hm.
    injection Hfix as <-. destruct Hin as [<-|[<-|[]]]; trivial.
Qed.

(** X9.  The line starting "Found not enough events!" is printed by
    exactly the runs that then fail with "Found too many events!"; a run
    that fails with "Found not enough events!" prints no such line. *)
Theorem not_enough_notice_precedes_too_many
  (sfreq : Q) (subj : Z) (T : list BehavRow) (stim : list Z) :
  (exists l, In l (stdout (reconcile sfreq subj T stim)) /\
             line_text l = "Found not enough events! "%string)
  <-> outcome (reconcile sfreq subj T stim) = Raise InsertionOverflow.
Proof.
  assert (Hno : forall out r l,
             fix_missing_triggers sfreq T stim = (out, r) -> In l out ->
             line_text l <> "Found not enough events! "%string).
  { intros out r l Hfix Hin E.
    assert (Hl := fix_stdout_lines _ _ _ _ _ _ Hfix Hin).
    destruct l; try discriminate E; exact Hl. }
  destruct (fix_missing_triggers sfreq T stim) as [out1 [stim'|e]] eqn:Hfix.
  - destruct (lt_eq_lt_dec (length stim') (length T)) as [[Hlt|Heq]|Hgt].
    + rewrite (reconcile_underflow _ subj _ _ _ _ Hfix Hlt).
      split; [|discriminate]. intros (l & Hin & E).
      exfalso. exact (Hno _ _ _ eq_refl Hin E).
    + rewrite (reconcile_checked _ subj _ _ _ _ Hfix Heq). cbn zeta.
      destruct (all_below _); (split; [|discriminate]);
        intros (l & Hin & E); exfalso; cbn [stdout fst] in Hin.
      * exact (Hno _ _ _ eq_refl Hin E).
      * apply in_app_or in Hin as [Hin|[<-|[]]];
          [exact (Hno _ _ _ eq_refl Hin E)|discriminate E].
    + rewrite (reconcile_overflow _ subj _ _ _ _ Hfix Hgt).
      split; [reflexivity|]. intros _.
      exists (FoundCounts (length stim') (length T)). split; [|reflexivity].
      cbn [stdout fst]. apply in_or_app. right. now left.
  - rewrite (reconcile_fix_raise _ subj _ _ _ _ Hfix).
    destruct (fix_raise_inv _ _ _ _ _ Hfix) as [-> _].
    split; [|discriminate]. intros (l & Hin & E).
    exfalso. exact (Hno _ _ _ eq_refl Hin E).
Qed.

(** * Configuration, files and batch runs *)

(** ** The participant groups of the configuration *)


Lemma config_participants lib fs project_name :
  participants_info (snd (preprocessing_config lib fs project_name))
  = [adults_info].
Proof.
  unfold preprocessing_config, fs_read_csv, fs_is_file.
  destruct (fs _) as [[|content]|]; reflexivity.
Qed.

Lemma config_find_group lib fs project_name group :
  find_group
    (participants_info (snd (preprocessing_config lib fs project_name)))
    group
  = if String.eqb "adults" group then Some adults_info else None.
Proof.
  now rewrite config_participants.
Qed.

Lemma other_group_step lib fs project_name n g ow :
  String.eqb "adults" g = false ->
  run_preprocess_files lib fs project_name n g ow
  = (fst (preprocessing_config lib fs project_name), fs,
     Raised (GroupNotFound g)).
Proof.
  intros Hg. unfold run_preprocess_files.
  assert (Hfind := config_find_group lib fs project_name g).
  destruct (preprocessing_config lib fs project_name) as [out0 cfg].
  cbn [snd fst] in *. now rewrite Hfind, Hg.
Qed.



(** ** Subject lists *)



(** ** Paths *)

Lemma string_length_append (x y : string) :
  String.length (x ++ y) = (String.length x + String.length y)%nat.
Proof. induction x as [|c x IH]; cbn; [reflexivity|now rewrite IH]. Qed.

Lemma string_eqb_append_l (x y z : string) :
  String.eqb (x ++ y) (x ++ z) = String.eqb y z.
Proof.
  induction x as [|c x IH]; cbn; [reflexivity|].
  now rewrite Ascii.eqb_refl.
Qed.

Lemma string_eqb_length (x y : string) :
  String.length x <> String.length y -> String.eqb x y = false.
Proof. intros H. apply String.eqb_neq. intros ->. now apply H. Qed.

Lemma relative_to_app (pre x y : path) :
  relative_to (pre ++ x) (pre ++ y) = relative_to x y.
Proof.
  induction pre as [|c pre IH]; cbn; [reflexivity|].
  now rewrite String.eqb_refl.
Qed.

Lemma relative_to_refl (p : path) : relative_to p p = Some [].
Proof.
  rewrite <- (app_nil_r p) at 1. rewrite <- (app_nil_r p) at 2.
  now rewrite relative_to_app.
Qed.

Lemma relative_to_firstn (k : nat) (d : path) :
  relative_to (firstn k d) d = Some (skipn k d).
Proof.
  rewrite <- (firstn_skipn k d) at 2.
  rewrite <- (app_nil_r (firstn k d)) at 1.
  now rewrite relative_to_app.
Qed.

(** ** File system operations *)

Lemma fs_rename_at_dst (fs : filesystem) (src dst : path) :
  fs_rename fs src dst dst = fs src.
Proof.
  unfold fs_rename. now rewrite relative_to_refl, app_nil_r.
Qed.

Lemma fs_rename_elsewhere (fs : filesystem) (src dst q : path) :
  relative_to dst q = None -> relative_to src q = None ->
  fs_rename fs src dst q = fs q.
Proof. unfold fs_rename. now intros -> ->. Qed.

Lemma in_self_and_parents (q d : path) :
  existsb (path_eqb q) (self_and_parents d) = true ->
  exists rest, relative_to q d = Some rest.
Proof.
  intros H. apply existsb_exists in H as (x & Hx & Heq).
  unfold self_and_parents in Hx. apply in_map_iff in Hx as (k & <- & _).
  unfold path_eqb in Heq.
  destruct (list_eq_dec string_dec q (firstn k d)) as [->|]; [|discriminate].
  eexists. apply relative_to_firstn.
Qed.

Lemma fs_mkdir_keeps (fs fs1 : filesystem) (d q : path) (n : node) :
  fs_mkdir_parents fs d = Some fs1 -> fs q = Some n -> fs1 q = Some n.
Proof.
  unfold fs_mkdir_parents. intros H Hq.
  destruct (existsb (fs_is_file fs) (self_and_parents d)) eqn:E;
    [discriminate|].
  injection H as <-.
  destruct (existsb (path_eqb q) (self_and_parents d)) eqn:Eq; [|exact Hq].
  apply existsb_exists in Eq as (x & Hx & Heq).
  unfold path_eqb in Heq.
  destruct (list_eq_dec string_dec q x) as [->|]; [|discriminate].
  assert (Hf : fs_is_file fs x = false).
  { destruct (fs_is_file fs x) eqn:Ef; trivial.
    assert (existsb (fs_is_file fs) (self_and_parents d) = true)
      by (apply existsb_exists; eauto).
    congruence. }
  unfold fs_is_file in Hf. rewrite Hq in Hf.
  destruct n; [reflexivity|discriminate].
Qed.

Lemma fs_mkdir_elsewhere (fs fs1 : filesystem) (d q : path) :
  fs_mkdir_parents fs d = Some fs1 -> relative_to q d = None ->
  fs1 q = fs q.
Proof.
  unfold fs_mkdir_parents. intros H Hq.
  destruct (existsb (fs_is_file fs) (self_and_parents d)); [discriminate|].
  injection H as <-.
  destruct (existsb (path_eqb q) (self_and_parents d)) eqn:Eq; trivial.
  apply in_self_and_parents in Eq as (rest & Hr). congruence.
Qed.

Lemma fs_exists_Some (fs : filesystem) (q : path) :
  fs_exists fs q = true <-> exists n, fs q = Some n.
Proof.
  unfold fs_exists. destruct (fs q) as [n|]; split; try discriminate; eauto.
  intros [n H]. discriminate.
Qed.

(** ** Bringing one input file in *)

Lemma bring_in_present k fs src dst out fs1 :
  bring_in k fs src dst = (out, fs1, Present) -> fs_exists fs1 dst = true.
Proof.
  unfold bring_in. destruct (fs_exists fs dst) eqn:Ed.
  - intros H. injection H as _ <-. exact Ed.
  - destruct (fs_exists fs src) eqn:Es; [|discriminate].
    destruct (fs_mkdir_parents fs (parent dst)) as [fs'|] eqn:Em;
      [|discriminate].
    intros H. injection H as _ <-.
    apply fs_exists_Some in Es as [n Hn].
    apply fs_exists_Some. exists n.
    rewrite fs_rename_at_dst. exact (fs_mkdir_keeps _ _ _ _ _ Em Hn).
Qed.

Lemma bring_in_keeps k fs src dst out fs1 r q n :
  bring_in k fs src dst = (out, fs1, r) ->
  relative_to dst q = None -> relative_to src q = None ->
  fs q = Some n -> fs1 q = Some n.
Proof.
  unfold bring_in. intros H Hd Hs Hq.
  destruct (fs_exists fs dst); [injection H as _ <- _; exact Hq|].
  destruct (fs_exists fs src); [|injection H as _ <- _; exact Hq].
  destruct (fs_mkdir_parents fs (parent dst)) as [fs'|] eqn:Em;
    injection H as _ <- _; [|exact Hq].
  rewrite fs_rename_elsewhere by assumption.
  exact (fs_mkdir_keeps _ _ _ _ _ Em Hq).
Qed.

Lemma bring_in_elsewhere k fs src dst out fs1 r q :
  bring_in k fs src dst = (out, fs1, r) ->
  relative_to dst q = None -> relative_to src q = None ->
  relative_to q (parent dst) = None ->
  fs1 q = fs q.
Proof.
  unfold bring_in. intros H Hd Hs Hp.
  destruct (fs_exists fs dst); [injection H as _ <- _; reflexivity|].
  destruct (fs_exists fs src); [|injection H as _ <- _; reflexivity].
  destruct (fs_mkdir_parents fs (parent dst)) as [fs'|] eqn:Em;
    injection H as _ <- _; [|reflexivity].
  rewrite fs_rename_elsewhere by assumption.
  exact (fs_mkdir_elsewhere _ _ _ _ Em Hp).
Qed.

Lemma bring_in_moved k fs src dst out fs1 r :
  bring_in k fs src dst = (out, fs1, r) ->
  In (Moved k) out ->
  r = Present /\
  fs_exists fs dst = false /\ fs_exists fs src = true /\
  fs1 dst = fs src /\
  (relative_to dst src = None -> fs1 src = None).
Proof.
  unfold bring_in. intros H Hin.
  destruct (fs_exists fs dst) eqn:Ed.
  { injection H as <- _ _. destruct Hin as [E|[]]. discriminate. }
  destruct (fs_exists fs src) eqn:Es.
  2:{ injection H as <- _ _. destruct Hin as [E|[]]. discriminate. }
  destruct (fs_mkdir_parents fs (parent dst)) as [fs'|] eqn:Em.
  2:{ injection H as <- _ _. destruct Hin as [E|[]]. discriminate. }
  injection H as _ <- <-. repeat split.
  - rewrite fs_rename_at_dst.
    apply fs_exists_Some in Es as [n Hn].
    rewrite Hn. exact (fs_mkdir_keeps _ _ _ _ _ Em Hn).
  - intros Er. unfold fs_rename. now rewrite Er, relative_to_refl.
Qed.

(** ** The paths of one subject *)

Lemma configured_files_eq lib fs project_name g n :
  configured_files lib fs project_name g n =
  let s := format_02d n in
  let sub := ("sub-" ++ s)%string in
  let P := data_root lib project_name in
  mkSubjectFiles
    (P ++ ["sourcedata"; sub ++ "_task-targets_events.csv"]%string)
    (P ++ ["sourcedata"; sub ++ "_task-targets_eeg.bdf"]%string)
    (P ++ ["raw"; g; sub; "eeg"; "sub" ++ s ++ ".bdf"]%string)
    (P ++ ["raw"; g; sub; "eeg"; sub ++ "_task-targets_events.tsv"]%string)
    (P ++ ["preprocessed"; g; sub; "mne"; sub ++ "_mne_epo.fif"]%string).
Proof.
  unfold configured_files, preprocessing_config, files_of, data_root.
  destruct (if negb _ then _ else _) as [printed infants].
  cbn [snd data_dir rawdata_dir preproc_dir].
  rewrite <- !app_assoc. reflexivity.
Qed.

Lemma removelast_app_cons {A} (l : list A) (x : A) (l' : list A) :
  removelast (l ++ x :: l') = l ++ removelast (x :: l').
Proof. apply removelast_app. discriminate. Qed.

Lemma configured_files_independent lib fs project_name g n :
  independent (configured_files lib fs project_name g n).
Proof.
  rewrite configured_files_eq. cbv zeta. unfold independent, parent.
  cbn [raw_filename behavfn source_filename source_behavfn outfn].
  rewrite !removelast_app_cons. cbn [removelast].
  rewrite !relative_to_app. cbn [relative_to String.eqb Ascii.eqb Bool.eqb].
  rewrite !String.eqb_refl.
  rewrite !string_eqb_append_l.
  rewrite (string_eqb_length
             ("sub" ++ format_02d n ++ ".bdf")
             (("sub-" ++ format_02d n) ++ "_task-targets_events.tsv")).
  2:{ rewrite !string_length_append. cbn [String.length]. lia. }
  cbn. repeat split.
Qed.

(** ** Locating the files of a subject *)

Lemma bring_in_not_present k fs src dst out fs1 r :
  bring_in k fs src dst = (out, fs1, r) -> r <> Present -> fs1 = fs.
Proof.
  unfold bring_in. intros H Hr.
  destruct (fs_exists fs dst); [injection H as _ _ <-; contradiction|].
  destruct (fs_exists fs src); [|now injection H as _ <- _].
  destruct (fs_mkdir_parents fs (parent dst));
    [injection H as _ _ <-; contradiction|now injection H as _ <- _].
Qed.

Lemma bring_in_found k fs src dst :
  fs_exists fs dst = true -> bring_in k fs src dst = ([Found k], fs, Present).
Proof. unfold bring_in. now intros ->. Qed.

Lemma bring_in_kind k k' fs src dst out fs1 r :
  bring_in k fs src dst = (out, fs1, r) -> In (Moved k') out -> k' = k.
Proof.
  unfold bring_in. intros H Hin.
  destruct (fs_exists fs dst);
    [injection H as <- _ _; destruct Hin as [E|[]]; discriminate|].
  destruct (fs_exists fs src);
    [|injection H as <- _ _; destruct Hin as [E|[]]; discriminate].
  destruct (fs_mkdir_parents fs (parent dst)); injection H as <- _ _.
  - destruct Hin as [E|[E|[]]]; [discriminate|now injection E].
  - destruct Hin as [E|[]]; discriminate.
Qed.

(** The cases of [locate_files]. *)
Lemma locate_files_cases fs ow f out fs2 r :
  locate_files fs ow f = (out, fs2, r) ->
  (fs_exists fs (outfn f) && (ow =? 0) = true /\
   out = [FileExists (outfn f)] /\ fs2 = fs /\
   r = Some ReturnedOutputExists) \/
  (fs_exists fs (outfn f) && (ow =? 0) = false /\
   exists out1 fs1 r1,
     bring_in Behavioural fs (source_behavfn f) (behavfn f)
     = (out1, fs1, r1) /\
     ((r1 = Missing /\ out = out1 /\ fs2 = fs /\
       r = Some (ReturnedInputMissing Behavioural)) \/
      (r1 = MkdirRaised /\ out = out1 /\ fs2 = fs /\
       r = Some (Raised MkdirFailed)) \/
      (r1 = Present /\
       exists out2 r2,
         bring_in Eeg fs1 (source_filename f) (raw_filename f)
         = (out2, fs2, r2) /\
         out = out1 ++ out2 /\
         r = match r2 with
             | Missing => Some (ReturnedInputMissing Eeg)
             | MkdirRaised => Some (Raised MkdirFailed)
             | Present => None
             end))).
Proof.
  unfold locate_files. intros H.
  destruct (fs_exists fs (outfn f) && (ow =? 0)) eqn:Ec.
  - left. injection H as <- <- <-. auto.
  - right. split; [reflexivity|].
    destruct (bring_in Behavioural fs (source_behavfn f) (behavfn f))
      as [[out1 fs1] r1] eqn:E1.
    exists out1, fs1, r1. split; [reflexivity|].
    destruct r1.
    + right. right. split; [reflexivity|].
      destruct (bring_in Eeg fs1 (source_filename f) (raw_filename f))
        as [[out2 fs2'] r2] eqn:E2.
      injection H as <- <- <-. exists out2, r2. auto.
    + left. injection H as <- <- <-.
      rewrite (bring_in_not_present _ _ _ _ _ _ _ E1) by discriminate.
      auto.
    + right. left. injection H as <- <- <-.
      rewrite (bring_in_not_present _ _ _ _ _ _ _ E1) by discriminate.
      auto.
Qed.

Lemma locate_files_ready fs ow f out fs2 :
  independent f ->
  locate_files fs ow f = (out, fs2, None) ->
  fs_exists fs2 (behavfn f) = true /\ fs_exists fs2 (raw_filename f) = true.
Proof.
  intros [[Ha1 Ha2] _] H.
  apply locate_files_cases in H
    as [(_ & _ & _ & ?)|(_ & out1 & fs1 & r1 & E1 & H)]; [discriminate|].
  destruct H as [(_ & _ & _ & ?)|[(_ & _ & _ & ?)|(-> & out2 & r2 & E2 & _ & Hr)]];
    try discriminate.
  destruct r2; try discriminate.
  split; [|exact (bring_in_present _ _ _ _ _ _ E2)].
  apply bring_in_present in E1. apply fs_exists_Some in E1 as [n Hn].
  apply fs_exists_Some. exists n.
  exact (bring_in_keeps _ _ _ _ _ _ _ _ _ E2 Ha1 Ha2 Hn).
Qed.

Lemma configured_files_same_parent lib fs project_name g n :
  parent (raw_filename (configured_files lib fs project_name g n))
  = parent (behavfn (configured_files lib fs project_name g n)).
Proof.
  rewrite configured_files_eq. cbv zeta. unfold parent.
  cbn [raw_filename behavfn]. now rewrite !removelast_app_cons.
Qed.

(** X13.  Locating the inputs changes nothing outside the four input
    paths and the directories leading to the raw location; a file it
    reports as moved is found unchanged at its raw path afterwards. *)
Theorem locating_only_moves_the_inputs
  (lib : Libraries) (fs0 : filesystem) (project_name g : string) (n : Z)
  (fs : filesystem) (ow : Z) (out : list notice) (fs2 : filesystem)
  (r : option ending) :
  let f := configured_files lib fs0 project_name g n in
  locate_files fs ow f = (out, fs2, r) ->
  (forall q,
     relative_to (source_behavfn f) q = None ->
     relative_to (behavfn f) q = None ->
     relative_to (source_filename f) q = None ->
     relative_to (raw_filename f) q = None ->
     relative_to q (parent (behavfn f)) = None ->
     fs2 q = fs q) /\
  (In (Moved Behavioural) out -> fs2 (behavfn f) = fs (source_behavfn f)) /\
  (In (Moved Eeg) out -> fs2 (raw_filename f) = fs (source_filename f)).
Proof.
  intros f H.
  destruct (configured_files_independent lib fs0 project_name g n)
    as ([Ha1 Ha2] & _ & (Hc1 & Hc2 & Hc3)). fold f in Ha1, Ha2, Hc1, Hc2, Hc3.
  assert (Hpar := configured_files_same_parent lib fs0 project_name g n).
  fold f in Hpar.
  apply locate_files_cases in H
    as [(_ & -> & -> & _)|(_ & out1 & fs1 & r1 & E1 & H)].
  { repeat split; trivial; intros [E|[]]; discriminate. }
  destruct H as [(-> & -> & -> & _)|[(-> & -> & -> & _)
                                     |(-> & out2 & r2 & E2 & -> & _)]].
  - repeat split; trivial; intros Hin.
    + destruct (bring_in_moved _ _ _ _ _ _ _ E1 Hin) as (? & _). discriminate.
    + apply (bring_in_kind _ _ _ _ _ _ _ _ E1) in Hin. discriminate.
  - repeat split; trivial; intros Hin.
    + destruct (bring_in_moved _ _ _ _ _ _ _ E1 Hin) as (? & _). discriminate.
    + apply (bring_in_kind _ _ _ _ _ _ _ _ E1) in Hin. discriminate.
  - split; [|split].
    + intros q Hq1 Hq2 Hq3 Hq4 Hq5.
      rewrite (bring_in_elsewhere _ _ _ _ _ _ _ q E2); trivial;
        [|now rewrite Hpar].
      now apply (bring_in_elsewhere _ _ _ _ _ _ _ q E1).
    + intros Hin. apply in_app_or in Hin as [Hin|Hin];
        [|apply (bring_in_kind _ _ _ _ _ _ _ _ E2) in Hin; discriminate].
      destruct (bring_in_moved _ _ _ _ _ _ _ E1 Hin) as (_ & _ & Hs & Hd & _).
      apply fs_exists_Some in Hs as [nd Hn]. rewrite Hn in *.
      exact (bring_in_keeps _ _ _ _ _ _ _ _ _ E2 Ha1 Ha2 Hd).
    + intros Hin. apply in_app_or in Hin as [Hin|Hin];
        [apply (bring_in_kind _ _ _ _ _ _ _ _ E1) in Hin; discriminate|].
      destruct (bring_in_moved _ _ _ _ _ _ _ E2 Hin) as (_ & _ & _ & Hd & _).
      rewrite Hd.
      now apply (bring_in_elsewhere _ _ _ _ _ _ _ _ E1).
Qed.

Lemma locating_only_moves_witness :
  fst (fst (locate_files fs_with_source 1
              (configured_files no_libraries empty_fs "viewpoint"
                 "adults" 1)))
  = [Moving Behavioural; Moved Behavioural; NotFound Eeg] /\
  snd (fst (locate_files fs_with_source 1
              (configured_files no_libraries empty_fs "viewpoint"
                 "adults" 1)))
    (behavfn (configured_files no_libraries empty_fs "viewpoint"
                "adults" 1))
  = Some (File "time_stimon").
Proof.
  split; [reflexivity|].
  destruct (locating_only_moves_the_inputs no_libraries empty_fs
              "viewpoint" "adults" 1 fs_with_source 1
              [Moving Behavioural; Moved Behavioural; NotFound Eeg]
              (snd (fst (locate_files fs_with_source 1
                           (configured_files no_libraries empty_fs
                              "viewpoint" "adults" 1))))
              (Some (ReturnedInputMissing Eeg)))
    as (_ & H & _).
  - reflexivity.
  - rewrite H; [reflexivity|]. right. now left.
Defined.

(** X14.  Locating the inputs a second time changes nothing more and
    ends the same way: the files found or moved by the first pass are
    found by the second. *)
Theorem locating_twice_changes_nothing
  (lib : Libraries) (fs0 : filesystem) (project_name g : string) (n : Z)
  (fs : filesystem) (ow : Z) (out : list notice) (fs2 : filesystem)
  (r : option ending) :
  let f := configured_files lib fs0 project_name g n in
  locate_files fs ow f = (out, fs2, r) ->
  exists out', locate_files fs2 ow f = (out', fs2, r).
Proof.
  intros f H.
  destruct (configured_files_independent lib fs0 project_name g n)
    as ([Ha1 Ha2] & (Hb1 & Hb2 & Hb3 & Hb4 & Hb5 & Hb6) & _).
  fold f in Ha1, Ha2, Hb1, Hb2, Hb3, Hb4, Hb5, Hb6.
  assert (H' := H).
  apply locate_files_cases in H'
    as [(_ & _ & -> & _)|(Hc & out1 & fs1 & r1 & E1 & H')];
    [now exists out|].
  destruct H' as [(_ & _ & -> & _)|[(_ & _ & -> & _)
                                    |(-> & out2 & r2 & E2 & _ & Hr)]];
    [now exists out|now exists out|].
  assert (Hout : fs_exists fs2 (outfn f) = fs_exists fs (outfn f)).
  { unfold fs_exists.
    rewrite (bring_in_elsewhere _ _ _ _ _ _ _ (outfn f) E2),
      (bring_in_elsewhere _ _ _ _ _ _ _ (outfn f) E1); trivial. }
  assert (Hd1 : fs_exists fs2 (behavfn f) = true).
  { assert (E := bring_in_present _ _ _ _ _ _ E1).
    apply fs_exists_Some in E as [nd Hn]. apply fs_exists_Some. exists nd.
    exact (bring_in_keeps _ _ _ _ _ _ _ _ _ E2 Ha1 Ha2 Hn). }
  unfold locate_files. rewrite Hout, Hc.
  rewrite (bring_in_found Behavioural fs2 _ _ Hd1).
  destruct r2.
  - rewrite (bring_in_found Eeg fs2 _ _ (bring_in_present _ _ _ _ _ _ E2)).
    subst r. eexists. reflexivity.
  - assert (fs2 = fs1)
      by (apply (bring_in_not_present _ _ _ _ _ _ _ E2); discriminate).
    subst fs2. rewrite E2. subst r. eexists. reflexivity.
  - assert (fs2 = fs1)
      by (apply (bring_in_not_present _ _ _ _ _ _ _ E2); discriminate).
    subst fs2. rewrite E2. subst r. eexists. reflexivity.
Qed.

Lemma locating_twice_witness :
  exists out',
    locate_files
      (snd (fst (locate_files fs_with_source 1
                   (configured_files no_libraries empty_fs "viewpoint"
                      "adults" 1))))
      1 (configured_files no_libraries empty_fs "viewpoint" "adults" 1)
    = (out',
       snd (fst (locate_files fs_with_source 1
                   (configured_files no_libraries empty_fs "viewpoint"
                      "adults" 1))),
       Some (ReturnedInputMissing Eeg)).
Proof.
  apply (locating_twice_changes_nothing no_libraries empty_fs "viewpoint"
           "adults" 1 fs_with_source 1
           [Moving Behavioural; Moved Behavioural; NotFound Eeg]).
  reflexivity.
Defined.

(** ** The whole of [run_preprocess] *)

Lemma run_preprocess_files_adults lib fs project_name n ow :
  run_preprocess_files lib fs project_name n "adults" ow =
  let '(out0, cfg) := preprocessing_config lib fs project_name in
  let f := configured_files lib fs project_name "adults" n in
  let out1 := out0 ++ [Preprocessing (format_02d n) "adults" "Biosemix"] in
  match locate_files fs (match ow with Some v => v | None => 0 end) f with
  | (out2, fs2, Some e) => (out1 ++ out2, fs2, e)
  | (out2, fs2, None) =>
      match process lib fs2 cfg "adults" n f with
      | (fs3, None) => (out1 ++ out2, fs3, Completed)
      | (fs3, Some msg) => (out1 ++ out2, fs3, Raised (ProcessingFailed msg))
      end
  end.
Proof.
  unfold run_preprocess_files, configured_files.
  assert (Hfind := config_find_group lib fs project_name "adults").
  assert (Hov : overwrite (snd (preprocessing_config lib fs project_name))
                = 0).
  { unfold preprocessing_config.
    destruct (if negb _ then _ else _) as [printed infants]. reflexivity. }
  destruct (preprocessing_config lib fs project_name) as [out0 cfg].
  cbn [snd] in *. rewrite Hfind. cbn [String.eqb Ascii.eqb Bool.eqb].
  cbn [eeg_system adults_info]. rewrite Hov. reflexivity.
Qed.

(** X15.  The processing of a recording (reading, alignment, filtering,
    epoching, saving) starts only when the behavioural file and the EEG
    file are both in the raw location; otherwise [run_preprocess] returns
    or raises before it. *)
Theorem processing_starts_with_inputs_in_place
  (lib : Libraries) (fs : filesystem) (project_name : string) (n : Z)
  (ow : option Z) (out : list notice) (fs' : filesystem) (e : ending) :
  let f := configured_files lib fs project_name "adults" n in
  let cfg := snd (preprocessing_config lib fs project_name) in
  run_preprocess_files lib fs project_name n "adults" ow = (out, fs', e) ->
  e = Completed \/ (exists msg, e = Raised (ProcessingFailed msg)) ->
  exists fs2,
    fs_exists fs2 (behavfn f) = true /\
    fs_exists fs2 (raw_filename f) = true /\
    fst (process lib fs2 cfg "adults" n f) = fs'.
Proof.
  intros f cfg H He. rewrite run_preprocess_files_adults in H.
  fold f in H. subst cfg.
  destruct (preprocessing_config lib fs project_name) as [out0 cfg].
  cbn [snd]. cbv zeta in H.
  set (v := match ow with Some v => v | None => 0 end) in *.
  destruct (locate_files fs v f) as [[out2 fs2] [e2|]] eqn:El.
  - injection H as _ _ <-.
    apply locate_files_cases in El
      as [(_ & _ & _ & Hr)|(_ & out1 & fs1 & r1 & E1 & El)].
    { injection Hr as ->. destruct He as [?|[? ?]]; discriminate. }
    destruct El as [(_ & _ & _ & Hr)|[(_ & _ & _ & Hr)
                                      |(_ & o2 & r2 & _ & _ & Hr)]];
      try (injection Hr as ->; destruct He as [?|[? ?]]; discriminate).
    destruct r2; try discriminate;
      injection Hr as ->; destruct He as [?|[? ?]]; discriminate.
  - exists fs2.
    destruct (locate_files_ready fs v f out2 fs2
                (configured_files_independent _ _ _ _ _) El) as [Hb Hr].
    repeat split; trivial.
    destruct (process lib fs2 cfg "adults" n f) as [fs3 [msg|]];
      now injection H as _ <- _.
Qed.

Lemma processing_starts_witness :
  exists fs2,
    fs_exists fs2
      (behavfn (configured_files no_libraries fs_with_both "viewpoint"
                  "adults" 1)) = true /\
    fs_exists fs2
      (raw_filename (configured_files no_libraries fs_with_both "viewpoint"
                       "adults" 1)) = true /\
    fst (process no_libraries fs2
           (snd (preprocessing_config no_libraries fs_with_both "viewpoint"))
           "adults" 1
           (configured_files no_libraries fs_with_both "viewpoint"
              "adults" 1))
    = fs_with_both.
Proof.
  apply (processing_starts_with_inputs_in_place no_libraries fs_with_both
           "viewpoint" 1 (Some 1)
           [WarnCouldNotLoad; Preprocessing "01" "adults" "Biosemix";
            Found Behavioural; Found Eeg]
           fs_with_both Completed).
  - reflexivity.
  - now left.
Defined.

Lemma missing_behaviour_step lib fs project_name n :
  let f := configured_files lib fs project_name "adults" n in
  fs_exists fs (behavfn f) = false ->
  fs_exists fs (source_behavfn f) = false ->
  exists out,
    run_preprocess_files lib fs project_name n "adults" (Some 1)
    = (out, fs, ReturnedInputMissing Behavioural).
Proof.
  intros f Hb Hs. rewrite run_preprocess_files_adults. fold f.
  destruct (preprocessing_config lib fs project_name) as [out0 cfg].
  unfold locate_files, bring_in. rewrite Hb, Hs, andb_false_r.
  eexists. reflexivity.
Qed.

(** X16.  When the behavioural file of an adult subject is in neither
    the raw nor the source location and the run is not skipped for an
    existing output, [run_preprocess] prints the error and returns
    without raising: the file system is unchanged and nothing is
    processed. *)
Theorem missing_behavioural_file_returns_quietly
  (lib : Libraries) (fs : filesystem) (project_name : string) (n : Z)
  (ow : option Z) :
  let f := configured_files lib fs project_name "adults" n in
  fs_exists fs (behavfn f) = false ->
  fs_exists fs (source_behavfn f) = false ->
  fs_exists fs (outfn f)
  && (match ow with Some v => v | None => 0 end =? 0) = false ->
  run_preprocess_files lib fs project_name n "adults" ow
  = (fst (preprocessing_config lib fs project_name)
     ++ [Preprocessing (format_02d n) "adults" "Biosemix";
         NotFound Behavioural],
     fs, ReturnedInputMissing Behavioural).
Proof.
  intros f Hb Hs Ho. rewrite run_preprocess_files_adults. fold f.
  destruct (preprocessing_config lib fs project_name) as [out0 cfg].
  unfold locate_files, bring_in. rewrite Ho, Hb, Hs.
  cbn [fst]. now rewrite <- app_assoc.
Qed.

Lemma missing_behavioural_file_witness :
  returned
    (snd (run_preprocess_files no_libraries empty_fs "viewpoint" 1 "adults"
            (Some 1)))
  = true.
Proof.
  rewrite (missing_behavioural_file_returns_quietly no_libraries empty_fs
             "viewpoint" 1 (Some 1)); reflexivity.
Defined.

(** ** The batch runner *)

Lemma count_ok_snoc (l : list attempt) (x : string * Z) (b : bool) :
  count_ok (l ++ [(x, b)])
  = (count_ok l + (if b then 1 else 0))%nat.
Proof.
  unfold count_ok. rewrite filter_app, length_app.
  destruct b; reflexivity.
Qed.

Lemma count_failed_snoc (l : list attempt) (x : string * Z) (b : bool) :
  count_failed (l ++ [(x, b)])
  = (count_failed l + (if b then 0 else 1))%nat.
Proof.
  unfold count_failed. rewrite filter_app, length_app.
  destruct b; reflexivity.
Qed.

Lemma run_subjects_tally lib pn g l t :
  success_count t = count_ok (attempts t) ->
  fail_count t = count_failed (attempts t) ->
  let t' := run_subjects lib pn g l t in
  map fst (attempts t') = map fst (attempts t) ++ map (pair g) l /\
  success_count t' = count_ok (attempts t') /\
  fail_count t' = count_failed (attempts t').
Proof.
  revert t. induction l as [|n l IH]; intros t Hs Hf; cbn [run_subjects].
  - cbn [map]. rewrite app_nil_r. auto.
  - destruct (run_preprocess_files lib (tally_fs t) pn n g (Some 1))
      as [[o fs'] e].
    match goal with
    | |- context [run_subjects lib pn g l ?t1] =>
        destruct (IH t1) as (Ha & Hs' & Hf')
    end.
    + destruct (returned e); cbn [success_count attempts];
        rewrite count_ok_snoc; lia.
    + destruct (returned e); cbn [fail_count attempts];
        rewrite count_failed_snoc; lia.
    + cbv zeta. rewrite Ha. split; [|auto].
      destruct (returned e); cbn [attempts]; rewrite map_app;
        cbn [map fst]; now rewrite <- app_assoc.
Qed.

Lemma run_groups_tally lib cfg c gs t :
  success_count t = count_ok (attempts t) ->
  fail_count t = count_failed (attempts t) ->
  let t' := run_groups lib cfg c gs t in
  map fst (attempts t')
  = map fst (attempts t)
    ++ flat_map (fun g => map (pair g) (get_subject_list cfg c g)) gs /\
  success_count t' = count_ok (attempts t') /\
  fail_count t' = count_failed (attempts t').
Proof.
  revert t. induction gs as [|g gs IH]; intros t Hs Hf; cbn [run_groups].
  - cbn [flat_map]. rewrite app_nil_r. auto.
  - destruct (run_subjects_tally lib (pipeline_project_name c) g
                (get_subject_list cfg c g) t Hs Hf) as (Ha & Hs' & Hf').
    destruct (IH _ Hs' Hf') as (Ha2 & Hs2 & Hf2).
    cbv zeta. rewrite Ha2, Ha. cbn [flat_map]. rewrite <- app_assoc. auto.
Qed.

Lemma count_ok_failed (l : list attempt) :
  (count_ok l + count_failed l = length l)%nat.
Proof.
  unfold count_ok, count_failed.
  induction l as [|[x []] l IH]; cbn in *; lia.
Qed.

(** X17.  The batch visits every subject of every active group once, in
    order, whether earlier subjects returned or raised; the two counters
    count the subjects that returned and the subjects that raised, and
    add up to the number of subjects visited. *)
Theorem batch_visits_every_subject_once
  (lib : Libraries) (fs : filesystem) (c : PipelineConfig) :
  let cfg := snd (preprocessing_config lib fs (pipeline_project_name c)) in
  let t := run_preprocessing_pipeline lib fs c in
  map fst (attempts t) = planned cfg c /\
  success_count t = count_ok (attempts t) /\
  fail_count t = count_failed (attempts t) /\
  (success_count t + fail_count t = length (planned cfg c))%nat.
Proof.
  intros cfg t. subst cfg t. unfold run_preprocessing_pipeline.
  destruct (preprocessing_config lib fs (pipeline_project_name c))
    as [o cfg]. cbn [snd].
  destruct (run_groups_tally lib cfg c (get_active_groups c)
              (mkTally fs [] 0 0) eq_refl eq_refl) as (Ha & Hs & Hf).
  cbn [attempts map app] in Ha.
  repeat split; trivial.
  rewrite Hs, Hf, count_ok_failed.
  unfold planned. rewrite <- Ha. now rewrite length_map.
Qed.

Lemma run_subjects_forall lib pn g (I : filesystem -> Prop)
  (P : attempt -> Prop) :
  (forall fs n,
     I fs ->
     I (snd (fst (run_preprocess_files lib fs pn n g (Some 1)))) /\
     P (g, n, returned (snd (run_preprocess_files lib fs pn n g (Some 1)))))
  ->
  forall l t,
    I (tally_fs t) -> Forall P (attempts t) ->
    I (tally_fs (run_subjects lib pn g l t)) /\
    Forall P (attempts (run_subjects lib pn g l t)).
Proof.
  intros Hstep. induction l as [|n l IH]; intros t HI HP;
    cbn [run_subjects]; [auto|].
  destruct (Hstep (tally_fs t) n HI) as [HI' HP'].
  destruct (run_preprocess_files lib (tally_fs t) pn n g (Some 1))
    as [[o fs'] e]. cbn [fst snd] in HI', HP'.
  apply IH; destruct (returned e); cbn [tally_fs attempts]; trivial;
    apply Forall_app; split; trivial; constructor; trivial.
Qed.

Lemma run_groups_forall lib cfg c (I : filesystem -> Prop)
  (P : attempt -> Prop) :
  (forall g fs n,
     I fs ->
     I (snd (fst (run_preprocess_files lib fs (pipeline_project_name c) n g
                    (Some 1)))) /\
     P (g, n,
        returned (snd (run_preprocess_files lib fs (pipeline_project_name c)
                         n g (Some 1))))) ->
  forall gs t,
    I (tally_fs t) -> Forall P (attempts t) ->
    I (tally_fs (run_groups lib cfg c gs t)) /\
    Forall P (attempts (run_groups lib cfg c gs t)).
Proof.
  intros Hstep. induction gs as [|g gs IH]; intros t HI HP;
    cbn [run_groups]; [auto|].
  destruct (run_subjects_forall lib (pipeline_project_name c) g I P
              (Hstep g) (get_subject_list cfg c g) t HI HP) as [HI' HP'].
  now apply IH.
Qed.





(** * Labels and folds for decoding *)

Lemma category_of_div (x : Z) : category_of x = - ((- x) / 8).
Proof.
  unfold category_of, Qceiling, Qfloor, Qdiv, Qmult, Qinv, Qopp, inject_Z.
  cbn [Qnum Qden]. rewrite Z.mul_1_r. reflexivity.
Qed.

Lemma category_rotation_injective (x y : Z) :
  category_of x = category_of y -> rotation_of x = rotation_of y -> x = y.
Proof.
  rewrite !category_of_div. unfold rotation_of. intros Hc Hr.
  Z.div_mod_to_equations. lia.
Qed.

Lemma category_rotation_range (x : Z) :
  1 <= x <= 112 ->
  1 <= category_of x <= 14 /\ 0 <= rotation_of x <= 7.
Proof.
  rewrite category_of_div. unfold rotation_of. intros H.
  Z.div_mod_to_equations. lia.
Qed.

Lemma prepare_decoding_data_inv {E} np (epochs : list E) behav dt cv
  X y groups n :
  prepare_decoding_data np epochs behav dt cv = Returns (X, y, groups, n) ->
  exists t',
    labels_for np t' dt = Returns y /\
    groups_for t' cv = Returns groups /\
    n = n_unique y /\
    ((istarget behav = None /\ t' = behav /\ X = epochs) \/
     (exists col,
        istarget behav = Some col /\ length col = length epochs /\
        t' = filter_rows (map (fun v => v =? 0) col) behav /\
        X = compress (map (fun v => v =? 0) col) epochs)).
Proof.
  unfold prepare_decoding_data. intros H.
  destruct (istarget behav) as [col|] eqn:Ei.
  - unfold mask_index in H. rewrite length_map in H.
    destruct (Nat.eqb_spec (length col) (length epochs)) as [El|El];
      [|discriminate].
    destruct (labels_for np _ dt) as [y'|] eqn:Ey; [|discriminate].
    destruct (groups_for _ cv) as [g'|] eqn:Eg; [|discriminate].
    injection H as <- <- <- <-.
    eexists. repeat split; eauto. right. exists col. auto.
  - destruct (labels_for np behav dt) as [y'|] eqn:Ey; [|discriminate].
    destruct (groups_for behav cv) as [g'|] eqn:Eg; [|discriminate].
    injection H as <- <- <- <-.
    exists behav. repeat split; auto.
Qed.



Lemma In_combine_seq {A} (l : list A) (k i : nat) (x : A) :
  In (i, x) (combine (seq k (length l)) l) <->
  (k <= i)%nat /\ nth_error l (i - k) = Some x.
Proof.
  revert k. induction l as [|h t IH]; intros k; cbn [length seq combine].
  - split; [intros []|intros [_ H]]. destruct (i - k)%nat; discriminate.
  - cbn [In]. rewrite IH. split.
    + intros [E|[Hle Hn]].
      * injection E as <- <-. split; [lia|]. now rewrite Nat.sub_diag.
      * split; [lia|].
        replace (i - k)%nat with (S (i - S k)) by lia. exact Hn.
    + intros [Hle Hn]. destruct (Nat.eq_dec i k) as [->|Hne].
      * left. rewrite Nat.sub_diag in Hn. cbn in Hn. congruence.
      * right. split; [lia|].
        replace (i - k)%nat with (S (i - S k)) in Hn by lia. exact Hn.
Qed.

Lemma In_indices_where (f : Z -> bool) (groups : list Z) (i : nat) :
  In i (indices_where f groups) <->
  exists g, nth_error groups i = Some g /\ f g = true.
Proof.
  unfold indices_where. rewrite in_map_iff. split.
  - intros ([i' g] & <- & Hin). apply filter_In in Hin as [Hin Hf].
    apply In_combine_seq in Hin as [_ Hn]. rewrite Nat.sub_0_r in Hn.
    exists g. auto.
  - intros (g & Hn & Hf). exists (i, g). split; [reflexivity|].
    apply filter_In. split; [|exact Hf].
    apply In_combine_seq. rewrite Nat.sub_0_r. split; [lia|exact Hn].
Qed.

(** X21.  With identity labels and rotation groups, no label of a test
    fold occurs in the training set of that fold: every trial left out
    shows a stimulus the classifier was not trained on. *)
Theorem identity_folds_share_no_label
  (E : Type) (np : Numpy) (epochs : list E) (behav : behav_table)
  (X : list E) (y : list Z) (groups : list Z) (n : nat)
  (splits : list (list nat * list nat)) (train test : list nat)
  (i j : nat) (yi yj : Z) :
  prepare_decoding_data np epochs behav "identity" "one_rotation_out"
  = Returns (X, IntLabels y, groups, n) ->
  LeaveOneGroupOut groups = Returns splits ->
  In (train, test) splits ->
  In i train -> In j test ->
  nth_error y i = Some yi -> nth_error y j = Some yj ->
  yi <> yj.
Proof.
  intros H Hs Hin Hi Hj Hyi Hyj.
  apply prepare_decoding_data_inv in H as (t' & Hy & Hg & _ & _).
  unfold labels_for, groups_for in *. cbn [String.eqb Ascii.eqb Bool.eqb] in *.
  destruct (stimnumber t') as [stim|]; [|discriminate].
  cbn [column] in *. injection Hy as <-. injection Hg as <-.
  unfold LeaveOneGroupOut in Hs.
  destruct (length (np_unique (map rotation_of stim)) <=? 1)%nat;
    [discriminate|].
  injection Hs as <-. apply in_map_iff in Hin as (g & E' & _).
  injection E' as <- <-.
  apply In_indices_where in Hi as (gi & Hgi & Hne).
  apply In_indices_where in Hj as (gj & Hgj & Heq).
  rewrite nth_error_map, Hyi in Hgi. rewrite nth_error_map, Hyj in Hgj.
  cbn in Hgi, Hgj. injection Hgi as <-. injection Hgj as <-.
  apply Z.eqb_eq in Heq. apply negb_true_iff, Z.eqb_neq in Hne.
  intros ->. congruence.
Qed.

Lemma identity_folds_witness : 1 <> 2.
Proof.
  apply (identity_folds_share_no_label nat no_numpy (seq 0 16)
           sixteen_trials (seq 0 15) (map Z.of_nat (seq 1 15))
           (map rotation_of (map Z.of_nat (seq 1 15))) 15
           (map (fun g =>
                   (indices_where (fun x => negb (x =? g))
                      (map rotation_of (map Z.of_nat (seq 1 15))),
                    indices_where (Z.eqb g)
                      (map rotation_of (map Z.of_nat (seq 1 15)))))
                [0; 1; 2; 3; 4; 5; 6; 7])
           (indices_where (fun x => negb (x =? 2))
              (map rotation_of (map Z.of_nat (seq 1 15))))
           (indices_where (Z.eqb 2)
              (map rotation_of (map Z.of_nat (seq 1 15))))
           0%nat 1%nat 1 2).
  - reflexivity.
  - reflexivity.
  - right. right. now left.
  - vm_compute. now left.
  - vm_compute. now left.
  - reflexivity.
  - reflexivity.
Defined.

Lemma length_compress {A} (mask : list bool) (l : list A) :
  length mask = length l ->
  length (compress mask l) = length (filter (fun m => m) mask).
Proof.
  revert l. induction mask as [|m mask IH]; intros [|x l] H;
    try discriminate; [reflexivity|].
  injection H as H. cbn [compress filter].
  destruct m; cbn [length]; now rewrite IH.
Qed.

(** X22.  For a table whose columns all have as many entries as there
    are epochs, with an [istarget] column and category or identity
    labels, a successful preparation returns as many epochs as labels
    and as groups, namely one per trial whose [istarget] is 0. *)
Theorem targets_are_dropped_consistently
  (E : Type) (np : Numpy) (epochs : list E) (behav : behav_table)
  (decode_type cv_scheme : string) (col : list Z)
  (X : list E) (y : labels) (groups : list Z) (n : nat) :
  has_rows (length epochs) behav ->
  istarget behav = Some col ->
  decode_type = "category"%string \/ decode_type = "identity"%string ->
  prepare_decoding_data np epochs behav decode_type cv_scheme
  = Returns (X, y, groups, n) ->
  length X = length (filter (fun v => v =? 0) col) /\
  label_count y = length X /\
  length groups = length X.
Proof.
  intros (_ & Hstim & _ & Hblock) Hcol Hdt H.
  apply prepare_decoding_data_inv in H as (t' & Hy & Hg & _ & Hcase).
  destruct Hcase as [(Hnone & _)|(col' & Hc & Hlen & -> & ->)];
    [congruence|].
  rewrite Hcol in Hc. injection Hc as <-.
  set (idx := map (fun v => v =? 0) col) in *.
  assert (Hidx : length idx = length epochs)
    by (subst idx; now rewrite length_map).
  assert (Hcount : length (filter (fun m => m) idx)
                   = length (filter (fun v => v =? 0) col)).
  { subst idx. clear. induction col as [|v col IH]; [reflexivity|].
    cbn [map filter]. destruct (v =? 0); cbn [length]; now rewrite IH. }
  assert (HX : length (compress idx epochs)
               = length (filter (fun v => v =? 0) col))
    by (rewrite length_compress; assumption).
  assert (Hcol' : forall l : list Z,
             length l = length epochs ->
             length (compress idx l) = length (compress idx epochs)).
  { intros l Hl. rewrite !length_compress; congruence. }
  split; [exact HX|].
  unfold labels_for, groups_for, filter_rows in *.
  cbn [stimnumber blocksequencenumber] in *.
  split.
  - destruct Hdt as [-> | ->]; cbn [String.eqb Ascii.eqb Bool.eqb] in Hy;
      destruct (stimnumber behav) as [stim|] eqn:Es; try discriminate;
      cbn [option_map column] in Hy; injection Hy as <-;
      cbn [label_count]; rewrite ?length_map; apply Hcol'; now apply Hstim.
  - destruct (String.eqb cv_scheme "one_rotation_out").
    + destruct (stimnumber behav) as [stim|] eqn:Es; [|discriminate].
      cbn [option_map column] in Hg. injection Hg as <-.
      rewrite length_map. apply Hcol'. now apply Hstim.
    + destruct (String.eqb cv_scheme "one_block_out"); [|discriminate].
      destruct (blocksequencenumber behav) as [blk|] eqn:Eb; [|discriminate].
      cbn [option_map] in Hg. injection Hg as <-.
      apply Hcol'. now apply Hblock.
Qed.

Lemma targets_are_dropped_witness :
  length (seq 0 15) = length (filter (fun v => v =? 0) (repeat 0 15 ++ [1]))
  /\ label_count (IntLabels (map Z.of_nat (seq 1 15))) = length (seq 0 15)
  /\ length (map rotation_of (map Z.of_nat (seq 1 15))) = length (seq 0 15).
Proof.
  apply (targets_are_dropped_consistently nat no_numpy (seq 0 16)
           sixteen_trials "identity" "one_rotation_out"
           (repeat 0 15 ++ [1]) (seq 0 15)
           (IntLabels (map Z.of_nat (seq 1 15)))
           (map rotation_of (map Z.of_nat (seq 1 15))) 15).
  - repeat split; intros l H; try discriminate;
      injection H as <-; reflexivity.
  - reflexivity.
  - now right.
  - reflexivity.
Defined.

(** * Repaired gaps *)

Lemma walk_from_reported (sfreq : Q) (b : list Q) (steps j : nat)
  (st : walk_state) out st' :
  (1 <= j)%nat ->
  walk_from sfreq b j steps st = (out, Ok st') ->
  (forall q, (q < j)%nat -> nth_error (a st') q = nth_error (a st) q) /\
  (forall p t,
     In (Inserting p t) out ->
     (j <= p < j + steps)%nat /\
     nth_error (a st') p = Some t /\
     exists x,
       nth_error (a st') (p - 1) = Some x /\
       t = (x + (nth p b 0 - nth (p - 1) b 0))%Q).
Proof.
  revert j st out. induction steps as [|k IH]; intros j st out H1 Hw.
  - cbn in Hw. injection Hw as <- <-. split; [reflexivity|intros p t []].
  - rewrite walk_from_S in Hw.
    destruct (le_lt_dec (length (a st)) j) as [Ha|Ha];
      [rewrite (bind_Raise _ _ _ _ (walk_step_out_of_range sfreq b j st H1
                                      (or_introl Ha))) in Hw; discriminate|].
    destruct (le_lt_dec (length b) j) as [Hb|Hb];
      [rewrite (bind_Raise _ _ _ _ (walk_step_out_of_range sfreq b j st H1
                                      (or_intror Hb))) in Hw; discriminate|].
    rewrite walk_step_in_range in Hw by lia.
    destruct (over_threshold (a st) b j) eqn:Hgap;
      rewrite (bind_Ok _ _ _ _ eq_refl) in Hw.
    + destruct (walk_from sfreq b (S j) k (insert_at sfreq b j st))
        as [o r] eqn:E.
      cbn [fst snd] in Hw. injection Hw as <- ->.
      destruct (IH (S j) _ _ ltac:(lia) E) as [Hstable Hrep].
      assert (Hx : nth_error (a st) (j - 1)
                   = Some (nth (j - 1) (a st) 0%Q))
        by (apply nth_error_nth'; lia).
      split.
      * intros q Hq. rewrite Hstable by lia. cbn [a insert_at].
        destruct (nth_error (a st) q) as [x|] eqn:Eq.
        -- now apply nth_error_py_insert_lt.
        -- apply nth_error_None in Eq. lia.
      * intros p t [Hin|Hin].
        -- injection Hin as <- <-. split; [lia|].
           rewrite !Hstable by lia. cbn [a insert_at]. split.
           ++ apply nth_error_py_insert_eq. lia.
           ++ exists (nth (j - 1) (a st) 0%Q). split; [|reflexivity].
              apply nth_error_py_insert_lt; [lia|exact Hx].
        -- destruct (Hrep p t Hin) as (Hp & Ht & Hprev).
           split; [lia|]. split; assumption.
    + destruct (walk_from sfreq b (S j) k st) as [o r] eqn:E.
      cbn [fst snd] in Hw. injection Hw as <- ->.
      destruct (IH (S j) _ _ ltac:(lia) E) as [Hstable Hrep].
      split.
      * intros q Hq. apply Hstable. lia.
      * intros p t Hin. destruct (Hrep p t Hin) as (Hp & Ht & Hprev).
        split; [lia|]. split; assumption.
Qed.




(** * Running the decoding *)

Lemma viewpoint_config_keys lib fs project_name fs1 cfg :
  viewpoint_decoding_config lib fs project_name = Some (fs1, cfg) ->
  dict_get cfg "classifier" = Some (VString "lda") /\
  dict_get cfg "temporal_decoding" = None /\
  dict_get cfg "save_results" = None /\
  dict_get cfg "plot_results" = Some (VBool true) /\
  dict_get cfg "savefile" = Some (VBool true) /\
  dict_get cfg "overwrite" = Some (VBool true) /\
  (exists p, dict_get cfg "results_dir" = Some (VPath p)) /\
  (exists p, dict_get cfg "figures_dir" = Some (VPath p)).
Proof.
  unfold viewpoint_decoding_config. intros H.
  destruct (fs_mkdir_parents fs _) as [fs'|]; [|discriminate].
  destruct (fs_mkdir_parents fs' _) as [fs''|]; [|discriminate].
  injection H as _ <-. repeat split; eexists; reflexivity.
Qed.

Lemma run_temporal_decoding_without_key {E} (dl : DecodingLibraries E)
  X y groups cfg :
  dict_get cfg "classifier" = Some (VString "lda") ->
  dict_get cfg "temporal_decoding" = None ->
  run_temporal_decoding dl X y groups cfg
  = Failed (KeyError "temporal_decoding").
Proof.
  intros Hc Ht. unfold run_temporal_decoding, dict_item.
  now rewrite Hc, Ht.
Qed.

Lemma run_analyses_without_key {E} (dl : DecodingLibraries E) cfg
  results_dir s epochs behav_data todo fs results :
  dict_get cfg "classifier" = Some (VString "lda") ->
  dict_get cfg "temporal_decoding" = None ->
  run_analyses dl cfg results_dir s true epochs behav_data todo fs results
  = if existsb (preparable dl epochs behav_data) todo
    then Failed (KeyError "temporal_decoding")
    else Done (fs, results).
Proof.
  intros Hc Ht. induction todo as [|[dt cv] rest IH]; [reflexivity|].
  cbn [run_analyses existsb negb]. rewrite andb_false_r.
  unfold preparable at 1. cbn [fst snd].
  destruct (prepare_decoding_data (numpy dl) epochs behav_data dt cv)
    as [[[[X y] groups] n]|e]; cbn [orb].
  - now rewrite run_temporal_decoding_without_key.
  - exact IH.
Qed.

Lemma run_analyses_never_records {E} (dl : DecodingLibraries E) cfg
  results_dir s ow epochs behav_data todo fs results :
  dict_get cfg "classifier" = Some (VString "lda") ->
  dict_get cfg "temporal_decoding" = None ->
  run_analyses dl cfg results_dir s ow epochs behav_data todo fs results
  = Failed (KeyError "temporal_decoding") \/
  run_analyses dl cfg results_dir s ow epochs behav_data todo fs results
  = Done (fs, results).
Proof.
  intros Hc Ht. induction todo as [|[dt cv] rest IH]; [now right|].
  cbn [run_analyses].
  destruct (fs_exists fs _ && negb ow); [exact IH|].
  destruct (prepare_decoding_data (numpy dl) epochs behav_data dt cv)
    as [[[[X y] groups] n]|e]; [|exact IH].
  left. now rewrite run_temporal_decoding_without_key.
Qed.

(** X24.  With the configuration of [viewpoint_decoding_config],
    [run_decoding] never returns: every call ends with an exception.
    The configuration has no key "temporal_decoding" and no key
    "save_results", so the call raises [KeyError] at the first analysis
    whose data could be prepared, or after the loop; before that it can
    only fail on a directory, a missing file or a library call. *)
Theorem run_decoding_never_returns
  (E : Type) (lib : Libraries) (dl : DecodingLibraries E)
  (fs : filesystem) (project_name : string) (subjectnr : Z)
  (participant_group : string)
  (decode_types cv_schemes : option (list string))
  (overwrite_arg : option bool) :
  exists e,
    run_decoding lib dl fs project_name subjectnr participant_group
      decode_types cv_schemes overwrite_arg = Failed e /\
    (e = KeyError "temporal_decoding" \/ e = KeyError "save_results" \/
     e = ResultsDirFailed \/ (exists p, e = FileNotFoundError p) \/
     (exists call, e = LibraryRaised call)).
Proof.
  unfold run_decoding.
  destruct (viewpoint_decoding_config lib fs project_name)
    as [[fs1 cfg]|] eqn:Ecfg; [|eexists; split; [reflexivity|auto]].
  destruct (viewpoint_config_keys _ _ _ _ _ Ecfg)
    as (Hc & Ht & Hs & Hp & Hsv & Ho & [rd Hrd] & [fd Hfd]).
  unfold dict_item. rewrite Ho, Hp, Hsv, Hrd, Hfd, Hs.
  set (ow := match overwrite_arg with
             | Some b => Done b | None => Done (truthy (VBool true)) end).
  assert (Eow : exists b, ow = Done b)
    by (subst ow; destruct overwrite_arg; eauto).
  destruct Eow as [b ->].
  destruct (negb (fs_exists fs1 _));
    [eexists; split; [reflexivity|eauto 10]|].
  destruct (negb (fs_exists fs1 _));
    [eexists; split; [reflexivity|eauto 10]|].
  destruct (option_map (read_epochs dl) _) as [[epochs|]|];
    try (eexists; split; [reflexivity|eauto 10]).
  destruct (option_map (read_tsv dl) _) as [[behav|]|];
    try (eexists; split; [reflexivity|eauto 10]).
  cbn [truthy andb].
  destruct (plot_joint dl epochs) as [png|];
    [|eexists; split; [reflexivity|eauto 10]].
  match goal with
  | |- context [run_analyses dl cfg rd ?s b epochs behav ?todo ?fs2 []] =>
      destruct (run_analyses_never_records dl cfg rd s b epochs behav todo
                  fs2 [] Hc Ht) as [-> | ->]
  end; eexists; split; try reflexivity; auto.
Qed.

(** X25.  When the results directories can be made, both files of the
    subject can be read and the epochs plot succeeds, a call with
    [overwrite=True] raises [KeyError('temporal_decoding')] if the data
    of at least one requested analysis can be prepared, and
    [KeyError('save_results')] otherwise; no analysis is recorded. *)
Theorem run_decoding_ends_with_KeyError
  (E : Type) (lib : Libraries) (dl : DecodingLibraries E)
  (fs : filesystem) (project_name : string) (subjectnr : Z)
  (participant_group : string) (decode_types cv_schemes : list string)
  (fs1 : filesystem) (cfg : pydict) (ce cb png : string)
  (epochs : list E) (behav_data : behav_table) :
  let f := files_of (snd (preprocessing_config lib fs project_name))
             participant_group (format_02d subjectnr) in
  viewpoint_decoding_config lib fs project_name = Some (fs1, cfg) ->
  fs_read fs1 (outfn f) = Some ce -> read_epochs dl ce = Some epochs ->
  fs_read fs1 (behavfn f) = Some cb -> read_tsv dl cb = Some behav_data ->
  plot_joint dl epochs = Some png ->
  run_decoding lib dl fs project_name subjectnr participant_group
    (Some decode_types) (Some cv_schemes) (Some true)
  = Failed
      (if existsb (preparable dl epochs behav_data)
            (list_prod decode_types cv_schemes)
       then KeyError "temporal_decoding"
       else KeyError "save_results").
Proof.
  intros f Ecfg Hfe Hre Hfb Hrb Hplot. unfold run_decoding. fold f.
  rewrite Ecfg.
  destruct (viewpoint_config_keys _ _ _ _ _ Ecfg)
    as (Hc & Ht & Hs & Hp & Hsv & Ho & [rd Hrd] & [fd Hfd]).
  assert (Hxe : fs_exists fs1 (outfn f) = true).
  { unfold fs_read in Hfe. unfold fs_exists.
    destruct (fs1 (outfn f)) as [[|c]|]; try discriminate. reflexivity. }
  assert (Hxb : fs_exists fs1 (behavfn f) = true).
  { unfold fs_read in Hfb. unfold fs_exists.
    destruct (fs1 (behavfn f)) as [[|c]|]; try discriminate. reflexivity. }
  rewrite Hxe, Hxb, Hfe, Hfb. cbn [negb option_map].
  rewrite Hre, Hrb. unfold dict_item. rewrite Hp, Hsv, Hrd, Hfd, Hs.
  cbn [truthy andb]. rewrite Hplot.
  rewrite run_analyses_without_key by assumption.
  destruct (existsb _ _); reflexivity.
Qed.

Lemma run_decoding_KeyError_witness :
  run_decoding no_libraries no_decoding fs_preprocessed "viewpoint" 1
    "adults" (Some ["category"%string])
    (Some ["one_rotation_out"%string]) (Some true)
  = Failed (KeyError "temporal_decoding").
Proof.
  pose (r := match viewpoint_decoding_config no_libraries fs_preprocessed
                     "viewpoint" with
             | Some x => x
             | None => (empty_fs, [])
             end).
  rewrite (run_decoding_ends_with_KeyError nat no_libraries no_decoding
             fs_preprocessed "viewpoint" 1 "adults"
             ["category"%string] ["one_rotation_out"%string]
             (fst r) (snd r) "fif" "tsv" "" (seq 0 16) sixteen_trials);
    reflexivity.
Defined.
